(** * HS110 exporter: the device protocol client of [hs110exporter.py]

    A shallow embedding of class [HS110data]: the XOR autokey cipher
    ([__encrypt], [__decrypt]), the stored realtime data ([__empty_data],
    [reset_data], [get_data]), the reply handling ([receive]) and the
    one-shot TCP exchange with its retry budget ([send], [connect]).

    Python values are modelled as follows.
    - [str] is a list of Unicode code points, [bytes] a list of [byte].
    - A Python [int] that is never negative (a code point, a key, a length)
      is an [N]; the retry counter, which is decremented, is a [Z].
    - An exception is a value of [exn]; a call either returns or raises. *)

From Stdlib Require Import List NArith ZArith Bool Lia Ascii String.
From Stdlib Require Import Strings.Byte.
From Stdlib Require DecimalString.
Import ListNotations.

(** ** Exceptions and outcomes *)

(** The exception classes the modelled methods can raise.
    [PreconditionError] is the violation of a [@require] contract of
    [dpcontracts] (it derives from [AssertionError]); [OSError] is
    [socket.error]; [SystemExit] is what [sys.exit] raises. *)
Inductive exn : Type :=
| PreconditionError
| ValueError
| KeyError
| TypeError
| AttributeError
| OverflowError
| OSError
| SystemExit.

(** [except Exception] catches every class above but [SystemExit], which
    derives from [BaseException] only. *)
Definition is_Exception (e : exn) : bool :=
  match e with
  | SystemExit => false
  | _ => true
  end.

Inductive outcome (A : Type) : Type :=
| Return (a : A)
| Raise (e : exn).

Arguments Return {A} a.
Arguments Raise {A} e.

Definition bindE {A B : Type} (c : outcome A) (k : A -> outcome B) : outcome B :=
  match c with
  | Return a => k a
  | Raise e => Raise e
  end.

Declare Scope exc_scope.
Delimit Scope exc_scope with exc.
Notation "x <- c ;; k" := (bindE c (fun x => k))
  (at level 61, c at next level, right associativity) : exc_scope.
Notation "c ;; k" := (bindE c (fun _ => k))
  (at level 61, right associativity) : exc_scope.

(** A [@require] condition of [dpcontracts]. *)
Definition require (cond : bool) : outcome unit :=
  if cond then Return tt else Raise PreconditionError.

(** ** Strings and bytes *)

Definition str : Type := list N.
Definition bytes : Type := list byte.

Definition str_eqb (a b : str) : bool :=
  if list_eq_dec N.eq_dec a b then true else false.

Fixpoint bytes_eqb (a b : bytes) : bool :=
  match a, b with
  | [], [] => true
  | x :: a', y :: b' => Byte.eqb x y && bytes_eqb a' b'
  | _, _ => false
  end.

(** A literal written with Rocq's string syntax; the apostrophe stands for
    the double quote, so that JSON text can be written down. *)
Definition lit (s : string) : str :=
  map (fun a => let c := N_of_ascii a in if N.eqb c 39 then 34%N else c)
      (list_ascii_of_string s).

(** [s.encode('latin-1', 'replace')]: one byte per character, [?] for a
    character outside Latin-1. *)
Definition latin1_encode_replace (s : str) : bytes :=
  map (fun c => match Byte.of_N c with Some b => b | None => x3f end) s.

(** [b.decode('latin-1', 'replace')]: every byte is a character. *)
Definition latin1_decode (b : bytes) : str := map Byte.to_N b.

(** [bytes([n])]: [ValueError] unless [0 <= n < 256]. *)
Definition bytes_of_int (n : N) : outcome bytes :=
  match Byte.of_N n with
  | Some b => Return [b]
  | None => Raise ValueError
  end.

(** ** The cipher *)

Module Cipher.

Local Open Scope exc_scope.

(** [self.__hs110_key], set to 171 by the constructor and never assigned
    again. *)
Definition hs110_key : N := 171.

(** The loop of [__encrypt]: [a = key ^ i; key = a; result += bytes([a])]. *)
Fixpoint encrypt_loop (key : N) (result : bytes) (data : bytes) : outcome bytes :=
  match data with
  | [] => Return result
  | i :: rest =>
      let a := N.lxor key (Byte.to_N i) in
      b <- bytes_of_int a ;;
      encrypt_loop a (result ++ b) rest
  end.

Definition encrypt (text : str) : outcome bytes :=
  require (0 <? List.length text)%nat ;;
  len <- bytes_of_int (N.of_nat (List.length text)) ;;
  encrypt_loop hs110_key ([x00; x00; x00] ++ len) (latin1_encode_replace text).

(** The contract shared by [__decrypt] and [receive]:
    [len(data) > 3 and data[0:3] == b"\0\0\0"]. *)
Definition frame_ok (data : bytes) : bool :=
  (3 <? List.length data)%nat && bytes_eqb (firstn 3 data) [x00; x00; x00].

(** The loop of [__decrypt]: [a = key ^ i; key = i; result += bytes([a])]. *)
Fixpoint decrypt_loop (key : N) (result : bytes) (data : bytes) : outcome bytes :=
  match data with
  | [] => Return result
  | i :: rest =>
      let a := N.lxor key (Byte.to_N i) in
      b <- bytes_of_int a ;;
      decrypt_loop (Byte.to_N i) (result ++ b) rest
  end.

Definition decrypt (data : bytes) : outcome str :=
  require (frame_ok data) ;;
  result <- decrypt_loop hs110_key [] (skipn 4 data) ;;
  Return (latin1_decode result).

(** [decode(encode(s))]. *)
Definition roundtrip (s : str) : outcome str :=
  frame <- encrypt s ;;
  decrypt frame.

End Cipher.

(** ** JSON values and the Python operations on them *)

(** A Python [dict] with [str] keys, in insertion order. *)
Definition dict (V : Type) : Type := list (str * V).

Fixpoint dict_get {V : Type} (k : str) (d : dict V) : option V :=
  match d with
  | [] => None
  | (k', v) :: rest => if str_eqb k' k then Some v else dict_get k rest
  end.

(** [d[k] = v]: an existing key keeps its place and takes the new value. *)
Fixpoint dict_set {V : Type} (k : str) (v : V) (d : dict V) : dict V :=
  match d with
  | [] => [(k, v)]
  | (k', v') :: rest =>
      if str_eqb k' k then (k', v) :: rest else (k', v') :: dict_set k v rest
  end.

Definition dict_has {V : Type} (k : str) (d : dict V) : bool :=
  match dict_get k d with
  | Some _ => true
  | None => false
  end.

(** A dict display [{k1: v1, k2: v2, ...}]. *)
Definition dict_of_list {V : Type} (items : list (str * V)) : dict V :=
  fold_left (fun d kv => dict_set (fst kv) (snd kv) d) items [].

#[local] Set Warnings "-register-all".

(** What [json.loads] returns.  A number with a fraction or an exponent
    (and [NaN], [Infinity]) becomes a Python [float]; it is kept as the text
    it was read from. *)
Inductive json : Type :=
| JNull
| JBool (b : bool)
| JInt (n : Z)
| JFloat (lexeme : str)
| JStr (s : str)
| JArr (items : list json)
| JObj (members : list (str * json)).

(** [v[k]] for a [str] key: only a dict can be indexed by a string. *)
Definition getitem (v : json) (k : str) : outcome json :=
  match v with
  | JObj d =>
      match dict_get k d with
      | Some x => Return x
      | None => Raise KeyError
      end
  | _ => Raise TypeError
  end.

Fixpoint is_prefix (p s : str) : bool :=
  match p, s with
  | [], _ => true
  | a :: p', b :: s' => N.eqb a b && is_prefix p' s'
  | _ :: _, [] => false
  end.

Fixpoint is_substring (p s : str) : bool :=
  is_prefix p s ||
  match s with
  | [] => false
  | _ :: s' => is_substring p s'
  end.

(** [k in v] for a [str] [k]: a key of a dict, an element of a list, a
    substring of a string; the other values are not iterable. *)
Definition contains (k : str) (v : json) : outcome bool :=
  match v with
  | JObj d => Return (dict_has k d)
  | JArr l =>
      Return (existsb (fun x => match x with JStr s => str_eqb s k | _ => false end) l)
  | JStr s => Return (is_substring k s)
  | _ => Raise TypeError
  end.

(** [v.keys()]. *)
Definition keys (v : json) : outcome (list str) :=
  match v with
  | JObj d => Return (map fst d)
  | _ => Raise AttributeError
  end.

(** What [float(v)] returns: the double nearest to an integer, or the double
    a JSON number text was read as. *)
Inductive pyfloat : Type :=
| FloatOfInt (n : Z)
| FloatLit (lexeme : str).

(** The least magnitude [float] refuses with [OverflowError]. *)
Definition float_overflow : Z := 2 ^ 1024 - 2 ^ 970.

(** [float(v)].  The conversion of a string is Python's float parser,
    taken as [float_of_str]. *)
Definition py_float (float_of_str : str -> outcome pyfloat) (v : json)
  : outcome pyfloat :=
  match v with
  | JInt n =>
      if (Z.abs n <? float_overflow)%Z then Return (FloatOfInt n)
      else Raise OverflowError
  | JBool b => Return (FloatOfInt (if b then 1 else 0))
  | JFloat lexeme => Return (FloatLit lexeme)
  | JStr s => float_of_str s
  | JNull | JArr _ | JObj _ => Raise TypeError
  end.

(** ** A reference decoder for [json.loads]

    [json.loads] belongs to Python's library, not to the exporter.  The
    client below takes the decoder as a parameter, so that what is proved
    of it holds for any decoder; [Json.loads] follows the library's scanner
    for a [str] argument and serves to run the client on concrete replies. *)

Module Json.

Local Open Scope N_scope.

Definition is_ws (c : N) : bool :=
  (c =? 32) || (c =? 9) || (c =? 10) || (c =? 13).

Fixpoint skip_ws (s : str) : str :=
  match s with
  | c :: rest => if is_ws c then skip_ws rest else s
  | [] => []
  end.

Definition is_digit (c : N) : bool := (48 <=? c) && (c <=? 57).

Definition hex_value (c : N) : option N :=
  if is_digit c then Some (c - 48)
  else if (97 <=? c) && (c <=? 102) then Some (c - 87)
  else if (65 <=? c) && (c <=? 70) then Some (c - 55)
  else None.

(** The four hex digits of a [\uXXXX] escape. *)
Definition hex4 (s : str) : option (N * str) :=
  match s with
  | a :: b :: c :: d :: rest =>
      match hex_value a, hex_value b, hex_value c, hex_value d with
      | Some x, Some y, Some z, Some w =>
          Some (((x * 16 + y) * 16 + z) * 16 + w, rest)
      | _, _, _, _ => None
      end
  | _ => None
  end.

Definition escape (c : N) : option N :=
  match c with
  | 34 => Some 34
  | 92 => Some 92
  | 47 => Some 47
  | 98 => Some 8
  | 102 => Some 12
  | 110 => Some 10
  | 114 => Some 13
  | 116 => Some 9
  | _ => None
  end.

Definition is_high_surrogate (c : N) : bool := (55296 <=? c) && (c <=? 56319).
Definition is_low_surrogate (c : N) : bool := (56320 <=? c) && (c <=? 57343).

(** The body of a string, after its opening quote (strict mode: a control
    character is refused). *)
Fixpoint scanstring_from (fuel : nat) (acc : str) (s : str) : option (str * str) :=
  match fuel with
  | O => None
  | S fuel' =>
      match s with
      | [] => None
      | 34 :: rest => Some (rev acc, rest)
      | 92 :: 117 :: rest =>
          match hex4 rest with
          | None => None
          | Some (c, rest1) =>
              let lone := scanstring_from fuel' (c :: acc) rest1 in
              if is_high_surrogate c then
                match rest1 with
                | 92 :: 117 :: rest2 =>
                    match hex4 rest2 with
                    | Some (c2, rest3) =>
                        if is_low_surrogate c2 then
                          scanstring_from fuel'
                            (65536 + ((c - 55296) * 1024 + (c2 - 56320)) :: acc) rest3
                        else lone
                    | None => lone
                    end
                | _ => lone
                end
              else lone
          end
      | 92 :: e :: rest =>
          match escape e with
          | Some c => scanstring_from fuel' (c :: acc) rest
          | None => None
          end
      | 92 :: [] => None
      | c :: rest =>
          if c <=? 31 then None else scanstring_from fuel' (c :: acc) rest
      end
  end.

Definition scanstring (s : str) : option (str * str) :=
  scanstring_from (List.length s) [] s.

Fixpoint take_digits (s : str) : str * str :=
  match s with
  | c :: rest =>
      if is_digit c then let (ds, r) := take_digits rest in (c :: ds, r)
      else ([], s)
  | [] => ([], [])
  end.

Definition digits_value (ds : str) : Z :=
  fold_left (fun v c => (v * 10 + Z.of_N (c - 48))%Z) ds 0%Z.

(** The integer part of a number: [0], or a non-zero digit and more. *)
Definition int_part (s : str) : option (str * str) :=
  match s with
  | 48 :: rest => Some ([48], rest)
  | c :: rest =>
      if is_digit c then let (ds, r) := take_digits rest in Some (c :: ds, r)
      else None
  | [] => None
  end.

(** [.] and at least one digit, or nothing. *)
Definition frac_part (s : str) : str * str :=
  match s with
  | 46 :: rest =>
      match take_digits rest with
      | ([], _) => ([], s)
      | (ds, r) => (46 :: ds, r)
      end
  | _ => ([], s)
  end.

(** [e] or [E], a sign if any, and at least one digit, or nothing. *)
Definition exp_part (s : str) : str * str :=
  match s with
  | e :: rest =>
      if (e =? 101) || (e =? 69) then
        let (sign, rest1) :=
          match rest with
          | c :: r => if (c =? 43) || (c =? 45) then ([c], r) else ([], rest)
          | [] => ([], rest)
          end in
        match take_digits rest1 with
        | ([], _) => ([], s)
        | (ds, r) => (e :: sign ++ ds, r)
        end
      else ([], s)
  | [] => ([], s)
  end.

Definition match_number (s : str) : option (json * str) :=
  let (sign, s1) :=
    match s with
    | 45 :: rest => ([45], rest)
    | _ => ([], s)
    end in
  match int_part s1 with
  | None => None
  | Some (ds, s2) =>
      let (frac, s3) := frac_part s2 in
      let (exp, s4) := exp_part s3 in
      match frac, exp with
      | [], [] =>
          let v := digits_value ds in
          Some (JInt (match sign with [] => v | _ => (- v)%Z end), s4)
      | _, _ => Some (JFloat (sign ++ ds ++ frac ++ exp), s4)
      end
  end.

Definition strip_prefix (p s : str) : option str :=
  if is_prefix p s then Some (skipn (List.length p) s) else None.

(** The constants and, failing them, a number. *)
Definition scan_atom (s : str) : option (json * str) :=
  match strip_prefix (lit "null") s with
  | Some r => Some (JNull, r)
  | None =>
  match strip_prefix (lit "true") s with
  | Some r => Some (JBool true, r)
  | None =>
  match strip_prefix (lit "false") s with
  | Some r => Some (JBool false, r)
  | None =>
  match strip_prefix (lit "NaN") s with
  | Some r => Some (JFloat (lit "NaN"), r)
  | None =>
  match strip_prefix (lit "Infinity") s with
  | Some r => Some (JFloat (lit "Infinity"), r)
  | None =>
  match strip_prefix (lit "-Infinity") s with
  | Some r => Some (JFloat (lit "-Infinity"), r)
  | None => match_number s
  end end end end end end.

(** [scan_once] with the loops of the object and the array decoders.  Two
    nested calls read at least one character, so a fuel above twice the
    length of the text is never used up. *)
Fixpoint scan_once (fuel : nat) (s : str) {struct fuel} : option (json * str) :=
  match fuel with
  | O => None
  | S fuel' =>
      match s with
      | [] => None
      | 34 :: rest =>
          match scanstring rest with
          | Some (t, r) => Some (JStr t, r)
          | None => None
          end
      | 123 :: rest =>
          match skip_ws rest with
          | 125 :: r => Some (JObj [], r)
          | r => parse_members fuel' [] r
          end
      | 91 :: rest =>
          match skip_ws rest with
          | 93 :: r => Some (JArr [], r)
          | r => parse_elements fuel' [] r
          end
      | _ => scan_atom s
      end
  end

with parse_members (fuel : nat) (acc : dict json) (s : str) {struct fuel}
  : option (json * str) :=
  match fuel with
  | O => None
  | S fuel' =>
      match s with
      | 34 :: rest =>
          match scanstring rest with
          | None => None
          | Some (key, r1) =>
              match skip_ws r1 with
              | 58 :: r2 =>
                  match scan_once fuel' (skip_ws r2) with
                  | None => None
                  | Some (v, r3) =>
                      let acc' := dict_set key v acc in
                      match skip_ws r3 with
                      | 125 :: r4 => Some (JObj acc', r4)
                      | 44 :: r4 => parse_members fuel' acc' (skip_ws r4)
                      | _ => None
                      end
                  end
              | _ => None
              end
          end
      | _ => None
      end
  end

with parse_elements (fuel : nat) (acc : list json) (s : str) {struct fuel}
  : option (json * str) :=
  match fuel with
  | O => None
  | S fuel' =>
      match scan_once fuel' s with
      | None => None
      | Some (v, r1) =>
          match skip_ws r1 with
          | 93 :: r2 => Some (JArr (acc ++ [v]), r2)
          | 44 :: r2 => parse_elements fuel' (acc ++ [v]) (skip_ws r2)
          | _ => None
          end
      end
  end.

(** [json.loads(s)]: [None] where the library raises. *)
Definition loads (s : str) : option json :=
  match s with
  | 65279 :: _ => None
  | _ =>
      match scan_once (S (S (2 * List.length s))) (skip_ws s) with
      | Some (v, r) =>
          match skip_ws r with
          | [] => Some v
          | _ :: _ => None
          end
      | None => None
      end
  end.

End Json.

(** ** The client object and its environment *)

(** [self.__hardware]: the constructor's contract admits ['h1'] and ['h2']
    only, and [receive] assigns nothing else. *)
Inductive hardware_version : Type := h1 | h2.

Definition SOCKET_RETRY : Z := 100.

(** The attributes of an [HS110data] object that change or that the
    operations read.  [__keyname] and [__hs110_key] are assigned once by the
    constructor and are the constants [keyname] and [Cipher.hs110_key]. *)
Record HS110data : Type := mkHS110data {
  hardware : hardware_version;
  received_data : json;
  ip : str;
  port : Z;
  socket_counter : Z
}.

Definition with_hardware (h : hardware_version) (o : HS110data) : HS110data :=
  mkHS110data h (received_data o) (ip o) (port o) (socket_counter o).

Definition with_received_data (d : json) (o : HS110data) : HS110data :=
  mkHS110data (hardware o) d (ip o) (port o) (socket_counter o).

Definition with_socket_counter (c : Z) (o : HS110data) : HS110data :=
  mkHS110data (hardware o) (received_data o) (ip o) (port o) c.

(** [self.__keyname[h]]. *)
Definition keyname (h : hardware_version) : dict str :=
  match h with
  | h1 =>
      dict_of_list
        [ (lit "current", lit "current"); (lit "voltage", lit "voltage");
          (lit "power", lit "power"); (lit "total", lit "total") ]
  | h2 =>
      dict_of_list
        [ (lit "current", lit "current_ma"); (lit "voltage", lit "voltage_mv");
          (lit "power", lit "power_mw"); (lit "total", lit "total_wh") ]
  end.

(** [self.__keyname[h][item]]. *)
Definition keyname_get (h : hardware_version) (item : str) : outcome str :=
  match dict_get item (keyname h) with
  | Some k => Return k
  | None => Raise KeyError
  end.

(** What one call of [send] meets on the network: the step of the exchange
    that raises [socket.error] (a timeout is one), or the buffer that [recv]
    returns.  Creating the socket and setting its timeout involve no network
    and are taken to succeed. *)
Inductive exchange : Type :=
| ConnectFails
| SendFails
| RecvFails
| Reply (data : bytes).

Definition transport_failure (net : exchange) : Prop :=
  match net with
  | Reply _ => False
  | _ => True
  end.

(** What a call does to its socket and to standard output, in order. *)
Inductive event : Type :=
| SockOpen
| SockSetTimeout (seconds : Z)
| SockConnect (host : str) (tcp_port : Z)
| SockSend (command : bytes)
| SockRecv (bufsize : Z)
| SockClose
| PrintError (host : str) (tcp_port : Z)
| PrintWarning.

Record world : Type := mkWorld {
  self : HS110data;
  trace : list event
}.

(** ** Methods that change the object: state and exceptions

    A method maps the world before the call to its outcome and the world
    after it; what a method assigned before it raised stays assigned. *)

Definition M (A : Type) : Type := world -> outcome A * world.

Definition ret {A : Type} (a : A) : M A := fun w => (Return a, w).

Definition raise {A : Type} (e : exn) : M A := fun w => (Raise e, w).

Definition bind {A B : Type} (c : M A) (k : A -> M B) : M B :=
  fun w =>
    match c w with
    | (Return a, w') => k a w'
    | (Raise e, w') => (Raise e, w')
    end.

Definition lift {A : Type} (c : outcome A) : M A := fun w => (c, w).

Definition get_self : M HS110data := fun w => (Return (self w), w).

Definition update (f : HS110data -> HS110data) : M unit :=
  fun w => (Return tt, mkWorld (f (self w)) (trace w)).

Definition emit (e : event) : M unit :=
  fun w => (Return tt, mkWorld (self w) (trace w ++ [e])).

(** [try: body / except ...: handler]: [handler e] is [None] when no
    [except] clause matches [e]. *)
Definition try_except {A : Type} (body : M A) (handler : exn -> option (M A)) : M A :=
  fun w =>
    match body w with
    | (Return a, w') => (Return a, w')
    | (Raise e, w') =>
        match handler e with
        | Some h => h w'
        | None => (Raise e, w')
        end
    end.

Declare Scope py_scope.
Delimit Scope py_scope with py.
Notation "x <- c ;; k" := (bind c (fun x => k))
  (at level 61, c at next level, right associativity) : py_scope.
Notation "c ;; k" := (bind c (fun _ => k))
  (at level 61, right associativity) : py_scope.

(** ** The address check *)

(** The characters [str.strip()] removes: those [str.isspace()] accepts. *)
Definition is_space (c : N) : bool :=
  ((9 <=? c) && (c <=? 13) || (28 <=? c) && (c <=? 32)
   || (c =? 133) || (c =? 160) || (c =? 5760)
   || (8192 <=? c) && (c <=? 8202)
   || (c =? 8232) || (c =? 8233) || (c =? 8239) || (c =? 8287) || (c =? 12288))%N.

Fixpoint lstrip (s : str) : str :=
  match s with
  | c :: rest => if is_space c then lstrip rest else s
  | [] => []
  end.

Definition rstrip (s : str) : str := rev (lstrip (rev s)).

(** [s.strip()]. *)
Definition strip (s : str) : str := rstrip (lstrip s).

(** A text [lstrip] leaves alone: it is empty or starts with a character
    that is no whitespace. *)
Definition trimmed_left (s : str) : Prop :=
  match s with
  | [] => True
  | c :: _ => is_space c = false
  end.

(** A call of a function that carries an [@ensure] contract: what its body
    does, or the [PostconditionError] of a result that fails the contract. *)
Inductive ensured (A : Type) : Type :=
| Body (r : outcome A)
| PostconditionError.

Arguments Body {A} r.
Arguments PostconditionError {A}.

(** [@ensure]: the condition is checked on a returned result only. *)
Definition ensure {A : Type} (cond : A -> bool) (body : outcome A) : ensured A :=
  match body with
  | Return a => if cond a then Body (Return a) else PostconditionError
  | Raise e => Body (Raise e)
  end.

(** [valid_ip].  [inet_pton] tells whether [socket.inet_pton(AF_INET, ip)]
    returns; where it raises, [valid_ip] raises [ValueError]. *)
Definition valid_ip (inet_pton : str -> bool) (ip : str) : ensured str :=
  ensure (fun result => is_substring result ip)
    (require (0 <? List.length ip)%nat ;;
     let ip' := strip ip in
     if inet_pton ip' then Return ip' else Raise ValueError)%exc.

(** The address parser of the C library behind [socket.inet_pton], as glibc
    has it: four decimal numbers of at most 255, none with a leading zero,
    with a dot between them.  It serves to run [valid_ip]. *)
Module Inet.

Fixpoint pton4_from (s : str) (octet : N) (saw_digit : bool) (octets : nat) : bool :=
  match s with
  | [] => (4 <=? octets)%nat
  | ch :: rest =>
      if Json.is_digit ch then
        let new := (octet * 10 + (ch - 48))%N in
        if saw_digit && (octet =? 0)%N then false
        else if (255 <? new)%N then false
        else if saw_digit then pton4_from rest new true octets
        else if (4 <? S octets)%nat then false
        else pton4_from rest new true (S octets)
      else if (ch =? 46)%N && saw_digit then
        if (octets =? 4)%nat then false else pton4_from rest 0%N false octets
      else false
  end.

Definition pton4 (s : str) : bool := pton4_from s 0%N false 0.

End Inet.

(** ** The methods of [HS110data] *)

(** [__empty_data]: it reads [__hardware] only. *)
Definition empty_data (h : hardware_version) : outcome json :=
  (current <- keyname_get h (lit "current") ;;
   voltage <- keyname_get h (lit "voltage") ;;
   power <- keyname_get h (lit "power") ;;
   total <- keyname_get h (lit "total") ;;
   Return
     (JObj (dict_of_list
        [ (lit "emeter",
           JObj (dict_of_list
             [ (lit "get_realtime",
                JObj (dict_of_list
                  [ (current, JInt 0); (voltage, JInt 0); (power, JInt 0);
                    (total, JInt 0); (lit "err_code", JInt 0) ])) ])) ])))%exc.

(** [__init__].  Its first contract runs [valid_ip] on [ip]: what
    [valid_ip] raises leaves the constructor, and what it returns must be
    true, that is not empty.  The contracts on [hardware_version] hold by
    type; the contract on [port] comes last.  The object keeps [ip] as it
    was given. *)
Definition init (inet_pton : str -> bool) (hardware_version : hardware_version)
    (ip : str) (port : Z) : ensured HS110data :=
  match valid_ip inet_pton ip with
  | PostconditionError => PostconditionError
  | Body (Raise e) => Body (Raise e)
  | Body (Return checked) =>
      Body
        (require (0 <? List.length checked)%nat ;;
         require ((0 <=? port)%Z && (port <=? 65535)%Z) ;;
         data <- empty_data hardware_version ;;
         Return (mkHS110data hardware_version data ip port SOCKET_RETRY))%exc
  end.

Definition reset_data : M unit :=
  (o <- get_self ;;
   data <- lift (empty_data (hardware o)) ;;
   update (with_received_data data))%py.

Definition get_cmd : outcome bytes :=
  Cipher.encrypt (lit "{'emeter':{'get_realtime':{}}}").

(** [get_data]: the [except KeyError] clause builds its message from the
    stored keys and raises [KeyError] again. *)
Definition get_data (float_of_str : str -> outcome pyfloat) (o : HS110data) (item : str)
  : outcome pyfloat :=
  (match
     (emeter <- getitem (received_data o) (lit "emeter") ;;
      realtime <- getitem emeter (lit "get_realtime") ;;
      key <- keyname_get (hardware o) item ;;
      value <- getitem realtime key ;;
      py_float float_of_str value)
   with
   | Raise KeyError =>
       emeter <- getitem (received_data o) (lit "emeter") ;;
       realtime <- getitem emeter (lit "get_realtime") ;;
       _ <- keys realtime ;;
       Raise KeyError
   | r => r
   end)%exc.

Section Client.

(** [json.loads]: [None] where it raises ([JSONDecodeError], a
    [ValueError], or [RecursionError]: an [Exception] either way). *)
Variable json_loads : str -> option json.

Definition loads_or_raise (text : str) : outcome json :=
  match json_loads text with
  | Some v => Return v
  | None => Raise ValueError
  end.

Definition receive (data : bytes) : M unit :=
  (lift (require (Cipher.frame_ok data)) ;;
   try_except
     (text <- lift (Cipher.decrypt data) ;;
      v <- lift (loads_or_raise text) ;;
      update (with_received_data v))
     (fun e => if is_Exception e then Some (raise ValueError) else None) ;;
   o <- get_self ;;
   emeter <- lift (getitem (received_data o) (lit "emeter")) ;;
   realtime <- lift (getitem emeter (lit "get_realtime")) ;;
   found <- lift (contains (lit "current_ma") realtime) ;;
   if (found : bool) then update (with_hardware h2) else update (with_hardware h1))%py.

(** The three socket calls inside the [try] of [send]. *)
Definition sock_exchange (command : bytes) (net : exchange) : M bytes :=
  (o <- get_self ;;
   emit (SockConnect (ip o) (port o)) ;;
   match net with
   | ConnectFails => raise OSError
   | _ =>
       emit (SockSend command) ;;
       match net with
       | SendFails => raise OSError
       | _ =>
           emit (SockRecv 2048) ;;
           match net with
           | Reply data => ret data
           | _ => raise OSError
           end
       end
   end)%py.

Definition send (command : bytes) (net : exchange) : M unit :=
  (emit SockOpen ;;
   emit (SockSetTimeout 2) ;;
   try_except
     (data <- sock_exchange command net ;;
      emit SockClose ;;
      update (with_socket_counter SOCKET_RETRY) ;;
      receive data)
     (fun e =>
        match e with
        | OSError =>
            Some
              (o <- get_self ;;
               emit (PrintError (ip o) (port o)) ;;
               update (fun o => with_socket_counter (socket_counter o - 1) o) ;;
               o' <- get_self ;;
               if (socket_counter o' =? 0)%Z then raise SystemExit else ret tt)
        | ValueError =>
            Some (reset_data ;; emit PrintWarning)
        | _ => None
        end))%py.

Definition connect (net : exchange) : M unit :=
  (command <- lift get_cmd ;;
   send command net)%py.

(** Successive calls of [send], one per entry of [nets], up to the first
    that raises: each call's outcome with the world it left. *)
Fixpoint sends (command : bytes) (nets : list exchange) (w : world)
  : list (outcome unit * world) :=
  match nets with
  | [] => []
  | net :: rest =>
      let r := send command net w in
      r :: match fst r with
           | Return _ => sends command rest (snd r)
           | Raise _ => []
           end
  end.

End Client.

(** ** Inputs of the examples *)

(** 256 times the letter [a]. *)
Definition long_text : str := repeat 97%N 256.

(** The reply of a hardware 2.x device, as [send] documents it. *)
Definition golden_response : str :=
  lit "{'emeter':{'get_realtime':{'voltage_mv':229865,'current_ma':1110,'power_mw':231866,'total_wh':228,'err_code':0}}}".

Definition golden_frame : bytes :=
  Eval vm_compute in
    match Cipher.encrypt golden_response with
    | Return frame => frame
    | Raise _ => []
    end.

(** A client of the default address, [failures] transport failures into
    its retry budget. *)
Definition client_after (h : hardware_version) (failures : Z) : world :=
  match init Inet.pton4 h (lit "192.168.1.53") 9999 with
  | Body (Return o) => mkWorld (with_socket_counter (SOCKET_RETRY - failures) o) []
  | _ => mkWorld (mkHS110data h JNull [] 0 0) []
  end.

(** What a call of [send] adds to the trace when the exchange [net] fails. *)
Definition failure_trace (o : HS110data) (command : bytes) (net : exchange)
  : list event :=
  [SockOpen; SockSetTimeout 2; SockConnect (ip o) (port o)]
  ++ match net with
     | ConnectFails => []
     | SendFails => [SockSend command]
     | _ => [SockSend command; SockRecv 2048]
     end
  ++ [PrintError (ip o) (port o)].

Definition is_open (e : event) : bool :=
  match e with
  | SockOpen => true
  | _ => false
  end.

Definition is_close (e : event) : bool :=
  match e with
  | SockClose => true
  | _ => false
  end.

(** The sockets a trace created and did not close. *)
Definition open_sockets (t : list event) : Z :=
  Z.of_nat (List.length (filter is_open t))
  - Z.of_nat (List.length (filter is_close t)).

(** What [golden_response] decodes to. *)
Definition golden_realtime : dict json :=
  [ (lit "voltage_mv", JInt 229865); (lit "current_ma", JInt 1110);
    (lit "power_mw", JInt 231866); (lit "total_wh", JInt 228);
    (lit "err_code", JInt 0) ].

Definition golden_emeter : json := JObj [(lit "get_realtime", JObj golden_realtime)].

Definition golden_payload : json := JObj [(lit "emeter", golden_emeter)].

(** The default client holding the reading of [golden_response],
    [failures] transport failures into its retry budget. *)
Definition client_with_reading (failures : Z) : world :=
  mkWorld (with_received_data golden_payload (self (client_after h2 failures))) [].

(** A reply that is no JSON. *)
Definition garbled_frame : bytes :=
  Eval vm_compute in
    match Cipher.encrypt (lit "HTTP/1.1 400 Bad Request") with
    | Return frame => frame
    | Raise _ => []
    end.

(** A reply whose realtime object has a lone surrogate for a key. *)
Definition surrogate_frame : bytes :=
  Eval vm_compute in
    match Cipher.encrypt (lit "{'emeter':{'get_realtime':{'\ud800':1}}}") with
    | Return frame => frame
    | Raise _ => []
    end.

(** The command [connect] sends, encrypted. *)
Definition realtime_command : bytes :=
  Eval vm_compute in
    match get_cmd with
    | Return frame => frame
    | Raise _ => []
    end.

(** A reply with the current of hardware 2.x and the voltage of hardware
    1.x. *)
Definition mixed_response : str :=
  lit "{'emeter':{'get_realtime':{'current_ma':1110,'voltage':229865}}}".

Definition mixed_frame : bytes :=
  Eval vm_compute in
    match Cipher.encrypt mixed_response with
    | Return frame => frame
    | Raise _ => []
    end.

(** A reply with an empty realtime object. *)
Definition hollow_frame : bytes :=
  Eval vm_compute in
    match Cipher.encrypt (lit "{'emeter':{'get_realtime':{}}}") with
    | Return frame => frame
    | Raise _ => []
    end.

(** The four logical names of [get_data]. *)
Definition logical_names : list str :=
  [lit "current"; lit "voltage"; lit "power"; lit "total"].

(** ** The text of the object and the loop of [main] *)

(** [sep.join(items)]. *)
Fixpoint join (sep : str) (items : list str) : str :=
  match items with
  | [] => []
  | [x] => x
  | x :: rest => x ++ sep ++ join sep rest
  end.

(** [__str__]: [key=value] for every key of the stored realtime data,
    [value] being [d.get(key)].  [py_str] is Python's [str()] of a value.
    A list or a string has no [get]; nothing is asked of an empty one. *)
Definition to_str (py_str : json -> str) (o : HS110data) : ensured str :=
  ensure (fun result => (0 <? List.length result)%nat)
    (emeter <- getitem (received_data o) (lit "emeter") ;;
     realtime <- getitem emeter (lit "get_realtime") ;;
     match realtime with
     | JObj d =>
         Return
           (join (lit ", ")
              (map (fun kv =>
                      fst kv ++ lit "="
                      ++ py_str match dict_get (fst kv) d with
                                | Some v => v
                                | None => JNull
                                end)
                 d))
     | JArr [] | JStr [] => Return []
     | JArr (_ :: _) | JStr (_ :: _) => Raise AttributeError
     | _ => Raise TypeError
     end)%exc.

(** The hardware version [receive] reads off a payload. *)
Definition variant_of_data (d : json) : outcome hardware_version :=
  (emeter <- getitem d (lit "emeter") ;;
   realtime <- getitem emeter (lit "get_realtime") ;;
   found <- contains (lit "current_ma") realtime ;;
   Return (if (found : bool) then h2 else h1))%exc.

(** The stored hardware version is the one the stored data shows. *)
Definition consistent (o : HS110data) : Prop :=
  variant_of_data (received_data o) = Return (hardware o).

(** The realtime data of a payload is a dict with at least one key. *)
Definition nonempty_realtime (d : json) : Prop :=
  exists emeter k v rest,
    getitem d (lit "emeter") = Return emeter /\
    getitem emeter (lit "get_realtime") = Return (JObj ((k, v) :: rest)).

Definition printable (o : HS110data) : Prop := nonempty_realtime (received_data o).

(** The retry budget [c] outlasts the exchanges [nets]: no run of failures
    brings it to 0, every reply brings it back to the maximum. *)
Fixpoint within_budget (c : Z) (nets : list exchange) : bool :=
  match nets with
  | [] => true
  | Reply _ :: rest => within_budget SOCKET_RETRY rest
  | _ :: rest => (1 <? c)%Z && within_budget (c - 1) rest
  end.

Section Loop.

Variable json_loads : str -> option json.

(** Python's [str()] of a stored value. *)
Variable py_str : json -> str.

(** [print]: it returns, or raises on a line standard output refuses
    ([UnicodeEncodeError] for a character its encoding has no place for). *)
Variable print_line : str -> outcome unit.

(** [time.sleep]: it returns, or raises on a length it refuses. *)
Variable sleep : Z -> outcome unit.

(** [args.frequency]. *)
Variable frequency : Z.

(** The line of the stored data [d] gets printed: [__str__] returns its
    text, and [print] takes the line made of it. *)
Definition prints (d : json) : Prop :=
  forall o : HS110data,
    received_data o = d ->
    exists text,
      to_str py_str o = Body (Return text) /\
      print_line (lit "[info] " ++ text) = Return tt.

(** A reply the loop takes without raising: its text is refused by
    [json.loads], or decodes to a payload whose line gets printed. *)
Definition tolerated (net : exchange) : Prop :=
  match net with
  | Reply data =>
      exists text,
        Cipher.decrypt data = Return text /\
        (json_loads text = None \/
         exists v, json_loads text = Some v /\ prints v)
  | _ => True
  end.

(** One turn of the loop of [main]: [hs110.connect()],
    [print('[info] %s' % hs110)], [time.sleep(args.frequency)]; the line it
    printed, when it comes to its end. *)
Definition turn (net : exchange) (w : world) : ensured str * world :=
  match connect json_loads net w with
  | (Raise e, w1) => (Body (Raise e), w1)
  | (Return _, w1) =>
      match to_str py_str (self w1) with
      | Body (Return text) =>
          let line := lit "[info] " ++ text in
          match print_line line with
          | Raise e => (Body (Raise e), w1)
          | Return _ =>
              match sleep frequency with
              | Return _ => (Body (Return line), w1)
              | Raise e => (Body (Raise e), w1)
              end
          end
      | Body (Raise e) => (Body (Raise e), w1)
      | PostconditionError => (PostconditionError, w1)
      end
  end.

(** The loop of [main] over the exchanges [nets], up to the first turn that
    raises: what each turn did, with the world it left. *)
Fixpoint main_loop (nets : list exchange) (w : world) : list (ensured str * world) :=
  match nets with
  | [] => []
  | net :: rest =>
      let r := turn net w in
      r :: match fst r with
           | Body (Return _) => main_loop rest (snd r)
           | _ => []
           end
  end.

End Loop.

(** Standard output with the UTF-8 encoding: [print] raises
    [UnicodeEncodeError], a [ValueError], on a line with a surrogate. *)
Definition utf8_print (line : str) : outcome unit :=
  if existsb (fun c => Json.is_high_surrogate c || Json.is_low_surrogate c) line
  then Raise ValueError
  else Return tt.

(** [str()] of an [int]. *)
Definition str_of_int (n : Z) : str :=
  lit (DecimalString.NilZero.string_of_int (Z.to_int n)).

(** [str()] of the values the documented replies hold, which are
    integers. *)
Definition str_of_reading (v : json) : str :=
  match v with
  | JInt n => str_of_int n
  | _ => []
  end.

(** * Properties of the cipher *)

Module CipherFacts.

Import Cipher.

Lemma lxor_byte (a b : N) : (a < 256 -> b < 256 -> N.lxor a b < 256)%N.
Proof.
  intros Ha Hb.
  destruct (N.eq_dec (N.lxor a b) 0) as [E | E]; [rewrite E; reflexivity |].
  change 256%N with (2 ^ 8)%N.
  apply N.log2_lt_pow2; [lia |].
  eapply N.le_lt_trans; [apply N.log2_lxor |].
  apply N.max_lub_lt.
  - destruct (N.eq_dec a 0) as [-> | Na]; [reflexivity |].
    apply N.log2_lt_pow2; [lia | exact Ha].
  - destruct (N.eq_dec b 0) as [-> | Nb]; [reflexivity |].
    apply N.log2_lt_pow2; [lia | exact Hb].
Qed.

Lemma to_N_byte (b : byte) : (Byte.to_N b < 256)%N.
Proof. pose proof (Byte.to_N_bounded b). lia. Qed.

(** [bytes([n])] returns for a value that fits a byte. *)
Lemma bytes_of_int_byte (n : N) :
  (n < 256)%N -> exists b, bytes_of_int n = Return [b] /\ Byte.to_N b = n.
Proof.
  intros Hn. unfold bytes_of_int.
  destruct (Byte.of_N n) as [b |] eqn:E.
  - exists b. split; [reflexivity | now apply Byte.to_of_N].
  - apply Byte.of_N_None_iff in E. lia.
Qed.

Lemma bytes_of_int_large (n : N) :
  (256 <= n)%N -> bytes_of_int n = Raise ValueError.
Proof.
  intros Hn. unfold bytes_of_int.
  destruct (Byte.of_N n) as [b |] eqn:E; [| reflexivity].
  apply Byte.to_of_N in E. pose proof (to_N_byte b). lia.
Qed.

Lemma lxor_cancel (k i : N) : N.lxor k (N.lxor k i) = i.
Proof. now rewrite <- N.lxor_assoc, N.lxor_nilpotent, N.lxor_0_l. Qed.

(** The encryption loop returns one byte per input byte, and the decryption
    loop started with the same key reads the input back. *)
Lemma encrypt_loop_spec (data : bytes) :
  forall (key : N) (result : bytes),
    (key < 256)%N ->
    exists body,
      encrypt_loop key result data = Return (result ++ body) /\
      List.length body = List.length data /\
      forall acc, decrypt_loop key acc body = Return (acc ++ data).
Proof.
  induction data as [| i rest IH]; intros key result Hkey.
  - exists []. simpl. rewrite !app_nil_r. repeat split; trivial.
    intros acc. now rewrite app_nil_r.
  - simpl.
    destruct (bytes_of_int_byte _ (lxor_byte _ _ Hkey (to_N_byte i))) as (b & Eb & Vb).
    rewrite Eb. simpl.
    destruct (IH (N.lxor key (Byte.to_N i)) (result ++ [b])
                (lxor_byte _ _ Hkey (to_N_byte i))) as (body & Eenc & Elen & Edec).
    exists (b :: body). rewrite Eenc, <- app_assoc. simpl.
    repeat split; [now rewrite Elen |].
    intros acc. rewrite Vb, lxor_cancel.
    unfold bytes_of_int at 1. rewrite Byte.of_to_N. simpl.
    rewrite Edec, <- app_assoc. reflexivity.
Qed.

(** The decryption loop never raises. *)
Lemma decrypt_loop_total (data : bytes) :
  forall (key : N) (acc : bytes),
    (key < 256)%N -> exists plain, decrypt_loop key acc data = Return plain.
Proof.
  induction data as [| i rest IH]; intros key acc Hkey; simpl.
  - now exists acc.
  - destruct (bytes_of_int_byte _ (lxor_byte _ _ Hkey (to_N_byte i))) as (b & Eb & _).
    rewrite Eb. simpl. apply IH, to_N_byte.
Qed.

Lemma latin1_roundtrip (s : str) :
  Forall (fun c => (c < 256)%N) s -> latin1_decode (latin1_encode_replace s) = s.
Proof.
  unfold latin1_decode, latin1_encode_replace.
  induction 1 as [| c s Hc _ IH]; simpl; [reflexivity |].
  rewrite IH. f_equal.
  destruct (Byte.of_N c) as [b |] eqn:E.
  - now apply Byte.to_of_N.
  - apply Byte.of_N_None_iff in E. lia.
Qed.

Lemma bytes_eqb_eq (a b : bytes) : bytes_eqb a b = true <-> a = b.
Proof.
  revert b. induction a as [| x a IH]; intros [| y b]; simpl;
    try (split; [discriminate | congruence]); [tauto |].
  rewrite andb_true_iff, IH. split.
  - intros [Hxy ->]. f_equal. now apply Byte.byte_dec_bl.
  - intros [= -> ->]. split; [now apply Byte.byte_dec_lb | reflexivity].
Qed.

(** The contract of [__decrypt] in words: more than 3 bytes, the first 3
    zero. *)
Lemma frame_ok_false (data : bytes) :
  frame_ok data = false <->
  (List.length data < 4)%nat \/ firstn 3 data <> [x00; x00; x00].
Proof.
  unfold frame_ok. rewrite andb_false_iff, Nat.ltb_ge.
  split; (intros [H | H]; [left; lia | right]).
  - intros E. apply bytes_eqb_eq in E. congruence.
  - destruct (bytes_eqb (firstn 3 data) [x00; x00; x00]) eqn:E; [| reflexivity].
    apply bytes_eqb_eq in E. contradiction.
Qed.

(** What [__decrypt] does with a frame that meets its contract. *)
Lemma decrypt_accepts (data : bytes) :
  frame_ok data = true -> exists text, decrypt data = Return text.
Proof.
  intros H. unfold decrypt, require, bindE. rewrite H.
  destruct (decrypt_loop_total (skipn 4 data) hs110_key [])
    as (plain & E); [reflexivity |].
  rewrite E. eauto.
Qed.

Lemma decrypt_returns_frame_ok (data : bytes) (text : str) :
  decrypt data = Return text -> frame_ok data = true.
Proof.
  unfold decrypt. destruct (frame_ok data); [reflexivity | discriminate].
Qed.

(** C1, as the code has it: for every string [s] of 1 to 255 characters,
    all of them single-byte (Latin-1), decrypting the result of encrypting
    [s] returns [s]. *)
Theorem roundtrip_short (s : str) :
  s <> [] ->
  (List.length s < 256)%nat ->
  Forall (fun c => (c < 256)%N) s ->
  roundtrip s = Return s.
Proof.
  intros Hne Hlen Hlatin. unfold roundtrip, encrypt.
  destruct s as [| c s']; [contradiction |].
  change (require (0 <? List.length (c :: s'))%nat) with (Return (A := unit) tt).
  cbn [bindE].
  destruct (@bytes_of_int_byte (N.of_nat (List.length (c :: s')))) as (len & Elen & _);
    [lia |].
  rewrite Elen. cbn [bindE].
  destruct (@encrypt_loop_spec (latin1_encode_replace (c :: s')) hs110_key
              ([x00; x00; x00] ++ [len])) as (body & Eenc & _ & Edec);
    [reflexivity |].
  rewrite Eenc. cbn [bindE app].
  unfold decrypt.
  change (frame_ok (x00 :: x00 :: x00 :: len :: body)) with true.
  cbn [require bindE skipn].
  rewrite Edec. cbn [bindE app].
  now rewrite latin1_roundtrip.
Qed.

(** The round trip of the realtime command. *)
Lemma roundtrip_short_witness :
  roundtrip (lit "{'emeter':{'get_realtime':{}}}")
  = Return (lit "{'emeter':{'get_realtime':{}}}").
Proof.
  apply (@roundtrip_short (lit "{'emeter':{'get_realtime':{}}}")).
  - discriminate.
  - vm_compute. lia.
  - repeat (constructor; [reflexivity |]). constructor.
Defined.

(** C1 fails on a string of 256 single-byte characters: [__encrypt]
    raises [ValueError] on its length byte, so nothing is decrypted. *)
Lemma roundtrip_long_text_fails :
  long_text <> [] /\
  Forall (fun c => (c < 256)%N) long_text /\
  roundtrip long_text = Raise ValueError /\
  roundtrip long_text <> Return long_text.
Proof.
  split; [discriminate |]. split; [| split].
  - apply Forall_forall. intros c Hc.
    apply repeat_spec in Hc. subst c. reflexivity.
  - vm_compute. reflexivity.
  - vm_compute. discriminate.
Qed.

(** C4, as the code has it: [__decrypt] fails with [PreconditionError]
    exactly on an input shorter than 4 bytes or whose first 3 bytes are not
    all zero; every other input, a 4-byte one included, is decrypted. *)
Theorem decrypt_rejects_exactly (data : bytes) :
  (decrypt data = Raise PreconditionError <->
   (List.length data < 4)%nat \/ firstn 3 data <> [x00; x00; x00]) /\
  (decrypt data <> Raise PreconditionError ->
   exists text, decrypt data = Return text).
Proof.
  rewrite <- frame_ok_false.
  destruct (frame_ok data) eqn:E.
  - destruct (@decrypt_accepts data E) as (text & Et). rewrite Et.
    split; [split; discriminate | eauto].
  - unfold decrypt. rewrite E. cbn [require bindE].
    split; [tauto | congruence].
Qed.

(** C4 fails on a 4-byte input: three zero bytes and a length byte are
    accepted and decrypt to the empty string. *)
Lemma decrypt_accepts_four_bytes :
  List.length [x00; x00; x00; x00] = 4%nat /\
  decrypt [x00; x00; x00; x00] = Return [].
Proof. split; reflexivity. Qed.

(** C8, as the code has it: for a plaintext of 1 to 255 characters,
    [__encrypt] returns three zero bytes, one byte holding the length of the
    plaintext, and one byte per character; for a plaintext of 256 characters
    or more it raises [ValueError]. *)
Theorem encrypt_header (s : str) :
  s <> [] ->
  ((List.length s < 256)%nat ->
   exists len body,
     encrypt s = Return (x00 :: x00 :: x00 :: len :: body) /\
     Byte.to_N len = N.of_nat (List.length s) /\
     List.length body = List.length s) /\
  ((256 <= List.length s)%nat -> encrypt s = Raise ValueError).
Proof.
  intros Hne. unfold encrypt.
  destruct s as [| c s']; [contradiction |].
  change (require (0 <? List.length (c :: s'))%nat) with (Return (A := unit) tt).
  cbn [bindE]. split; intros Hlen.
  - destruct (@bytes_of_int_byte (N.of_nat (List.length (c :: s')))) as (len & Elen & Vlen);
      [lia |].
    rewrite Elen. cbn [bindE].
    destruct (@encrypt_loop_spec (latin1_encode_replace (c :: s')) hs110_key
                ([x00; x00; x00] ++ [len])) as (body & Eenc & Lbody & _);
      [reflexivity |].
    exists len, body. rewrite Eenc. repeat split; trivial.
    rewrite Lbody. unfold latin1_encode_replace. apply length_map.
  - rewrite bytes_of_int_large by lia. reflexivity.
Qed.

(** The header of the realtime command: 30 characters. *)
Lemma encrypt_header_witness :
  exists len body,
    encrypt (lit "{'emeter':{'get_realtime':{}}}")
    = Return (x00 :: x00 :: x00 :: len :: body) /\
    Byte.to_N len = 30%N /\ List.length body = 30%nat.
Proof.
  destruct (@encrypt_header (lit "{'emeter':{'get_realtime':{}}}")) as [Hshort _].
  - discriminate.
  - apply Hshort. vm_compute. lia.
Defined.

(** C8 fails on a plaintext of 256 characters: no header with the length
    byte 256 mod 256 = 0 is returned, [__encrypt] raises [ValueError]. *)
Lemma encrypt_long_text_fails :
  List.length long_text = 256%nat /\
  encrypt long_text = Raise ValueError /\
  ~ exists body, encrypt long_text = Return (x00 :: x00 :: x00 :: x00 :: body).
Proof.
  assert (E : encrypt long_text = Raise ValueError) by (vm_compute; reflexivity).
  split; [reflexivity |]. split; [exact E |].
  intros (body & Hbody). rewrite E in Hbody. discriminate.
Qed.

End CipherFacts.

(** * Properties of the stored data *)

Module DataFacts.

(** [__empty_data] returns, whatever the hardware version. *)
Lemma empty_data_returns (h : hardware_version) :
  exists d, empty_data h = Return d.
Proof. destruct h; vm_compute; eauto. Qed.


(** What [reset_data] does to the world. *)
Lemma reset_data_run (w : world) :
  exists d,
    empty_data (hardware (self w)) = Return d /\
    reset_data w = (Return tt, mkWorld (with_received_data d (self w)) (trace w)).
Proof.
  destruct (empty_data_returns (hardware (self w))) as (d & Ed).
  exists d. split; [exact Ed |].
  unfold reset_data, bind, get_self, lift, update. rewrite Ed. reflexivity.
Qed.

(** What [__init__] returns, when it returns. *)
Lemma init_returns (inet_pton : str -> bool) (hv : hardware_version) (host : str)
    (tcp_port : Z) (o : HS110data) :
  init inet_pton hv host tcp_port = Body (Return o) ->
  hardware o = hv /\ empty_data hv = Return (received_data o).
Proof.
  unfold init.
  destruct (valid_ip inet_pton host) as [[checked | e] |]; try discriminate.
  destruct (require (0 <? List.length checked)%nat); cbn [bindE]; [| discriminate].
  destruct (require ((0 <=? tcp_port)%Z && (tcp_port <=? 65535)%Z));
    cbn [bindE]; [| discriminate].
  destruct (empty_data hv) as [d |]; cbn [bindE]; [| discriminate].
  intros [= <-]. split; reflexivity.
Qed.



End DataFacts.

(** * Properties of the exchange *)

Module ClientFacts.

#[local] Arguments lit : simpl never.

Section WithDecoder.

Variable json_loads : str -> option json.

Ltac run :=
  unfold send, sock_exchange, receive, reset_data, loads_or_raise, try_except, bind, ret,
    raise, lift, get_self, update, emit;
  cbn [self trace fst snd with_socket_counter with_received_data with_hardware
       hardware received_data ip port socket_counter require bindE is_Exception].

(** A call of [send] that meets a transport failure: the counter loses 1,
    nothing else of the object changes, and the call exits the process when
    the counter reaches 0. *)
Lemma send_failure_run (command : bytes) (net : exchange) (w : world) :
  transport_failure net ->
  send json_loads command net w
  = ((if (socket_counter (self w) - 1 =? 0)%Z then Raise SystemExit else Return tt),
     mkWorld (with_socket_counter (socket_counter (self w) - 1) (self w))
             (trace w ++ failure_trace (self w) command net)).
Proof.
  intros Hnet. destruct net; try contradiction; run;
    destruct (socket_counter (self w) - 1 =? 0)%Z;
    unfold failure_trace; repeat rewrite <- app_assoc; reflexivity.
Qed.

(** What [receive] never touches: the trace, the retry counter, the
    address. *)
Lemma receive_frame (data : bytes) (w : world) :
  let w' := snd (receive json_loads data w) in
  trace w' = trace w /\
  socket_counter (self w') = socket_counter (self w) /\
  ip (self w') = ip (self w) /\
  port (self w') = port (self w).
Proof.
  run.
  destruct (Cipher.frame_ok data); cbn; [| auto].
  destruct (Cipher.decrypt data) as [text | e]; cbn.
  - destruct (json_loads text) as [v |]; cbn; [| auto].
    destruct (getitem v (lit "emeter")) as [emeter | e]; cbn; [| auto].
    destruct (getitem emeter (lit "get_realtime")) as [realtime | e]; cbn; [| auto].
    destruct (contains (lit "current_ma") realtime) as [[|] | e]; cbn; auto.
  - destruct e; cbn; auto.
Qed.

(** A reply whose text [json.loads] refuses: [receive] raises [ValueError]
    and has changed nothing. *)
Lemma receive_undecodable (data : bytes) (text : str) (w : world) :
  Cipher.decrypt data = Return text ->
  json_loads text = None ->
  receive json_loads data w = (Raise ValueError, w).
Proof.
  intros Hd Hj. run.
  rewrite (@CipherFacts.decrypt_returns_frame_ok data text Hd), Hd. cbn.
  rewrite Hj. cbn. reflexivity.
Qed.

(** A reply that decodes to [v] with a dict [realtime] under
    [emeter]/[get_realtime]. *)
Lemma receive_decoded (data : bytes) (text : str) (v emeter : json)
    (realtime : dict json) (w : world) :
  Cipher.decrypt data = Return text ->
  json_loads text = Some v ->
  getitem v (lit "emeter") = Return emeter ->
  getitem emeter (lit "get_realtime") = Return (JObj realtime) ->
  receive json_loads data w
  = (Return tt,
     mkWorld
       (with_hardware (if dict_has (lit "current_ma") realtime then h2 else h1)
          (with_received_data v (self w)))
       (trace w)).
Proof.
  intros Hd Hj He Hr. run.
  rewrite (@CipherFacts.decrypt_returns_frame_ok data text Hd), Hd. cbn.
  rewrite Hj. cbn. rewrite He. cbn. rewrite Hr. cbn.
  destruct (dict_has (lit "current_ma") realtime); reflexivity.
Qed.

Lemma getitem_raises (v : json) (k : str) (e : exn) :
  getitem v k = Raise e -> e = KeyError \/ e = TypeError.
Proof.
  destruct v; cbn; try (intros [= <-]; auto).
  destruct (dict_get k members); [discriminate | intros [= <-]; auto].
Qed.

Lemma contains_raises (k : str) (v : json) (e : exn) :
  contains k v = Raise e -> e = TypeError.
Proof. destruct v; cbn; try discriminate; now intros [= <-]. Qed.

(** The exceptions [receive] can raise; [socket.error] is not one. *)
Lemma receive_raises (data : bytes) (w : world) (e : exn) :
  fst (receive json_loads data w) = Raise e ->
  e = PreconditionError \/ e = ValueError \/ e = KeyError \/ e = TypeError.
Proof.
  run.
  destruct (Cipher.frame_ok data) eqn:Hok; cbn; [| intros [= <-]; auto].
  destruct (@CipherFacts.decrypt_accepts data Hok) as (text & ->). cbn.
  destruct (json_loads text) as [v |]; cbn; [| intros [= <-]; auto].
  destruct (getitem v (lit "emeter")) as [emeter | e1] eqn:E1; cbn.
  - destruct (getitem emeter (lit "get_realtime")) as [realtime | e2] eqn:E2; cbn.
    + destruct (contains (lit "current_ma") realtime) as [[|] | e3] eqn:E3; cbn;
        try discriminate.
      intros [= <-]. apply contains_raises in E3. auto.
    + intros [= <-]. apply getitem_raises in E2. tauto.
  - intros [= <-]. apply getitem_raises in E1. tauto.
Qed.

(** The world in which [send] calls [receive]: the exchange is over, the
    socket closed, the counter back at its maximum. *)
Lemma send_reply_run (command data : bytes) (w : world) :
  let w1 :=
    mkWorld (with_socket_counter SOCKET_RETRY (self w))
      (trace w ++ [SockOpen; SockSetTimeout 2;
                   SockConnect (ip (self w)) (port (self w));
                   SockSend command; SockRecv 2048; SockClose]) in
  send json_loads command (Reply data) w
  = match receive json_loads data w1 with
    | (Raise ValueError, w2) =>
        bind reset_data (fun _ => emit PrintWarning) w2
    | r => r
    end.
Proof.
  intros w1.
  unfold send, sock_exchange, try_except, bind, ret, raise, get_self, update, emit.
  cbn [self trace]. repeat rewrite <- app_assoc. cbn [app]. fold w1.
  destruct (receive json_loads data w1) as [[[] | e] w2] eqn:E; [reflexivity |].
  apply (f_equal fst) in E. cbn [fst] in E. apply receive_raises in E.
  destruct E as [-> | [-> | [-> | ->]]]; reflexivity.
Qed.

(** C5: on every transport failure of a [send] call the retry counter
    decreases by exactly 1, and the stored data, the hardware version, the
    host and the port are left as they were. *)
Theorem transport_failure_decrements (command : bytes) (net : exchange) (w : world) :
  transport_failure net ->
  let w' := snd (send json_loads command net w) in
  socket_counter (self w') = (socket_counter (self w) - 1)%Z /\
  received_data (self w') = received_data (self w) /\
  hardware (self w') = hardware (self w) /\
  ip (self w') = ip (self w) /\
  port (self w') = port (self w).
Proof.
  intros Hnet w'. subst w'. rewrite (send_failure_run command net w Hnet).
  cbn. auto.
Qed.

(** A run of transport failures no longer than the retry budget: every
    call is made, and the call number [i + 1] leaves the counter [i + 1]
    lower, the rest of the object as it was, and exits the process exactly
    when the counter has reached 0. *)
Lemma sends_failures (command : bytes) (nets : list exchange) :
  forall w : world,
    Forall transport_failure nets ->
    (Z.of_nat (List.length nets) <= socket_counter (self w))%Z ->
    let runs := sends json_loads command nets w in
    List.length runs = List.length nets /\
    forall (i : nat) (r : outcome unit * world),
      nth_error runs i = Some r ->
      fst r = (if (socket_counter (self w) - Z.of_nat (S i) =? 0)%Z
               then Raise SystemExit else Return tt) /\
      self (snd r)
      = with_socket_counter (socket_counter (self w) - Z.of_nat (S i)) (self w).
Proof.
  induction nets as [| net rest IH]; intros w Hall Hlen runs; subst runs.
  - split; [reflexivity |]. intros [| i] r; discriminate.
  - inversion Hall as [| ? ? Hnet Hrest]; subst.
    cbn [sends]. rewrite (send_failure_run command net w Hnet). cbn [fst snd].
    cbn [List.length] in Hlen.
    destruct (socket_counter (self w) - 1 =? 0)%Z eqn:E.
    + apply Z.eqb_eq in E.
      destruct rest as [| net' rest']; [| cbn [List.length] in Hlen; lia].
      split; [reflexivity |].
      intros [| i] r Hr; [| destruct i; discriminate].
      injection Hr as <-. cbn [fst snd self].
      change (Z.of_nat 1) with 1%Z. rewrite E. cbn. auto.
    + set (w1 := mkWorld _ _).
      destruct (IH w1 Hrest) as [Hl Hn];
        [subst w1; cbn [self with_socket_counter socket_counter]; lia |].
      split; [cbn [List.length]; now rewrite Hl |].
      intros [| i] r Hr.
      * injection Hr as <-. cbn [fst snd self].
        change (Z.of_nat 1) with 1%Z. rewrite E. auto.
      * cbn [nth_error] in Hr. destruct (Hn i r Hr) as [Hf Hs].
        subst w1. cbn [self with_socket_counter socket_counter] in Hf, Hs.
        replace (socket_counter (self w) - Z.of_nat (S (S i)))%Z
          with (socket_counter (self w) - 1 - Z.of_nat (S i))%Z by lia.
        split; [exact Hf |]. rewrite Hs. reflexivity.
Qed.

(** C2: from a counter at its maximum of 100, a run of exactly 100
    consecutive transport failures of [send] makes all 100 calls, exits the
    process on the 100th and on no earlier one, leaves the stored data as it
    was after every call, and keeps the counter within 0..100. *)
Theorem retry_exhaustion (command : bytes) (nets : list exchange) (w : world) :
  socket_counter (self w) = SOCKET_RETRY ->
  List.length nets = 100%nat ->
  Forall transport_failure nets ->
  let runs := sends json_loads command nets w in
  List.length runs = 100%nat /\
  forall (i : nat) (r : outcome unit * world),
    nth_error runs i = Some r ->
    (fst r = Raise SystemExit <-> i = 99%nat) /\
    ((i < 99)%nat -> fst r = Return tt) /\
    received_data (self (snd r)) = received_data (self w) /\
    socket_counter (self (snd r)) = (100 - Z.of_nat (S i))%Z /\
    (0 <= socket_counter (self (snd r)) <= 100)%Z.
Proof.
  intros Hc Hlen Hall runs.
  destruct (@sends_failures command nets w Hall) as [Hl Hn];
    [rewrite Hc, Hlen; unfold SOCKET_RETRY; lia |].
  fold runs in Hl, Hn. split; [now rewrite Hl |].
  intros i r Hr.
  assert (Hi : (i < 100)%nat).
  { rewrite <- Hlen, <- Hl. apply nth_error_Some. now rewrite Hr. }
  destruct (Hn i r Hr) as [Hf Hs]. rewrite Hc in Hf, Hs. unfold SOCKET_RETRY in Hf, Hs.
  rewrite Hs. cbn [received_data socket_counter with_socket_counter].
  destruct (100 - Z.of_nat (S i) =? 0)%Z eqn:E.
  - apply Z.eqb_eq in E. rewrite Hf.
    repeat split; intros; first [reflexivity | lia | exfalso; lia].
  - apply Z.eqb_neq in E. rewrite Hf.
    repeat split; intros; first [reflexivity | discriminate | lia | exfalso; lia].
Qed.

(** C6: a transport success in a [send] call leaves the retry counter at
    exactly 100, whatever it was before (any value in 1..100 included) and
    whatever [receive] then does with the reply. *)
Theorem transport_success_resets_counter (command data : bytes) (w : world) :
  socket_counter (self (snd (send json_loads command (Reply data) w))) = SOCKET_RETRY.
Proof.
  rewrite send_reply_run. cbv zeta.
  set (w1 := mkWorld _ _).
  pose proof (receive_frame data w1) as Hframe. cbv zeta in Hframe.
  destruct (receive json_loads data w1) as [[[] | e] w2];
    cbn [snd] in Hframe; destruct Hframe as (_ & Hc & _).
  - cbn [snd]. rewrite Hc. reflexivity.
  - assert (Hkeep : socket_counter (self (snd (Raise (A := unit) e, w2))) = SOCKET_RETRY)
      by (cbn [snd]; rewrite Hc; reflexivity).
    destruct e; try exact Hkeep.
    unfold bind. destruct (DataFacts.reset_data_run w2) as (d & _ & ->).
    unfold emit. cbn. exact Hc.
Qed.

(** When the exchange succeeds and the reply meets the frame contract but
    its text is refused by [json.loads], [send] returns normally after a
    warning, with the stored data reset to the all-zero state of the stored
    hardware version and the retry counter at 100. *)
Theorem undecodable_reply_resets (command data : bytes) (text : str) (w : world) :
  Cipher.decrypt data = Return text ->
  json_loads text = None ->
  let r := send json_loads command (Reply data) w in
  fst r = Return tt /\
  empty_data (hardware (self w)) = Return (received_data (self (snd r))) /\
  hardware (self (snd r)) = hardware (self w) /\
  socket_counter (self (snd r)) = SOCKET_RETRY /\
  last (trace (snd r)) SockOpen = PrintWarning.
Proof.
  intros Hd Hj r. subst r. rewrite send_reply_run. cbv zeta.
  rewrite (receive_undecodable data text _ Hd Hj).
  unfold bind. destruct (DataFacts.reset_data_run (mkWorld
    (with_socket_counter SOCKET_RETRY (self w))
    (trace w ++ [SockOpen; SockSetTimeout 2;
                 SockConnect (ip (self w)) (port (self w));
                 SockSend command; SockRecv 2048; SockClose]))) as (d & Ed & ->).
  unfold emit. cbn [fst snd self trace hardware with_socket_counter
                    with_received_data received_data socket_counter] in *.
  repeat split; trivial. apply last_last.
Qed.

(** C7: for a reply that decodes to a payload with a realtime object,
    [receive] stores the payload and sets the hardware version to [h2]
    exactly when the realtime object has the key [current_ma], to [h1]
    otherwise, whatever version was stored before. *)
Theorem receive_detects_variant (data : bytes) (text : str) (v emeter : json)
    (realtime : dict json) (w : world) :
  Cipher.decrypt data = Return text ->
  json_loads text = Some v ->
  getitem v (lit "emeter") = Return emeter ->
  getitem emeter (lit "get_realtime") = Return (JObj realtime) ->
  let r := receive json_loads data w in
  fst r = Return tt /\
  received_data (self (snd r)) = v /\
  (hardware (self (snd r)) = h2 <-> dict_has (lit "current_ma") realtime = true) /\
  (hardware (self (snd r)) = h1 <-> dict_has (lit "current_ma") realtime = false).
Proof.
  intros Hd Hj He Hr r. subst r.
  rewrite (receive_decoded data text v emeter realtime w Hd Hj He Hr).
  cbn [fst snd self hardware received_data with_hardware with_received_data].
  destruct (dict_has (lit "current_ma") realtime);
    repeat split; trivial; discriminate.
Qed.

Lemma open_sockets_app (t s : list event) :
  open_sockets (t ++ s) = (open_sockets t + open_sockets s)%Z.
Proof. unfold open_sockets. rewrite !filter_app, !length_app. lia. Qed.

(** The trace of a [send] call whose exchange succeeds: the six socket
    calls, the last of them [close], and at most a warning. *)
Lemma send_reply_trace (command data : bytes) (w : world) :
  exists tail,
    (tail = [] \/ tail = [PrintWarning]) /\
    trace (snd (send json_loads command (Reply data) w))
    = trace w
      ++ [SockOpen; SockSetTimeout 2; SockConnect (ip (self w)) (port (self w));
          SockSend command; SockRecv 2048; SockClose]
      ++ tail.
Proof.
  rewrite send_reply_run. cbv zeta.
  set (w1 := mkWorld _ _).
  pose proof (receive_frame data w1) as Hframe. cbv zeta in Hframe.
  destruct (receive json_loads data w1) as [[[] | e] w2];
    cbn [snd] in Hframe; destruct Hframe as (Ht & _).
  - exists []. split; [auto |]. cbn [snd]. rewrite Ht, app_nil_r. reflexivity.
  - assert (Hkeep : exists tail,
               (tail = [] \/ tail = [PrintWarning]) /\
               trace (snd (Raise (A := unit) e, w2))
               = trace w
                 ++ [SockOpen; SockSetTimeout 2;
                     SockConnect (ip (self w)) (port (self w));
                     SockSend command; SockRecv 2048; SockClose]
                 ++ tail).
    { exists []. split; [auto |]. cbn [snd]. rewrite Ht, app_nil_r. reflexivity. }
    destruct e; try exact Hkeep.
    exists [PrintWarning]. split; [auto |].
    unfold bind. destruct (DataFacts.reset_data_run w2) as (d & _ & ->).
    unfold emit. cbn [snd trace]. rewrite Ht. subst w1. cbn [trace].
    rewrite <- app_assoc. reflexivity.
Qed.

(** C9, and where the code departs from it: a [send] call whose exchange
    succeeds closes the socket it created, also when the reply then fails
    to decode; a call whose connect, send or recv raises returns (or exits)
    with that socket still open. *)
Theorem send_failure_leaves_socket_open (command : bytes) (w : world) :
  (forall data : bytes,
     open_sockets (trace (snd (send json_loads command (Reply data) w)))
     = open_sockets (trace w)) /\
  open_sockets (trace (snd (send json_loads command ConnectFails w)))
  = (open_sockets (trace w) + 1)%Z /\
  open_sockets (trace (snd (send json_loads command SendFails w)))
  = (open_sockets (trace w) + 1)%Z /\
  open_sockets (trace (snd (send json_loads command RecvFails w)))
  = (open_sockets (trace w) + 1)%Z.
Proof.
  split.
  - intros data.
    destruct (send_reply_trace command data w) as (tail & Htail & ->).
    rewrite !open_sockets_app.
    destruct Htail as [-> | ->]; cbn; lia.
  - repeat split;
      rewrite send_failure_run by exact I;
      cbn [snd trace]; rewrite open_sockets_app; cbn; lia.
Qed.

(** A reply that fails the frame contract of [receive] (fewer than 4 bytes,
    or a non-zero byte among the first 3): the [PreconditionError] leaves
    [send], which handles [socket.error] and [ValueError] only; the stored
    data is not reset. *)
Theorem bad_frame_propagates (command data : bytes) (w : world) :
  Cipher.frame_ok data = false ->
  let r := send json_loads command (Reply data) w in
  fst r = Raise PreconditionError /\
  received_data (self (snd r)) = received_data (self w) /\
  socket_counter (self (snd r)) = SOCKET_RETRY.
Proof.
  intros Hok r. subst r. rewrite send_reply_run. cbv zeta.
  run. rewrite Hok. cbn. auto.
Qed.

(** A reply that decodes to a JSON object without the key [emeter]: the
    payload has replaced the stored data when the lookup raises [KeyError],
    which leaves [send]. *)
Theorem unstructured_reply_propagates (command data : bytes) (text : str)
    (members : dict json) (w : world) :
  Cipher.decrypt data = Return text ->
  json_loads text = Some (JObj members) ->
  dict_get (lit "emeter") members = None ->
  let r := send json_loads command (Reply data) w in
  fst r = Raise KeyError /\
  received_data (self (snd r)) = JObj members /\
  hardware (self (snd r)) = hardware (self w).
Proof.
  intros Hd Hj Hm r. subst r. rewrite send_reply_run. cbv zeta.
  run. rewrite (CipherFacts.decrypt_returns_frame_ok data text Hd), Hd. cbn.
  rewrite Hj. cbn. rewrite Hm. cbn. auto.
Qed.

End WithDecoder.

(** ** Runs of the client with the reference decoder *)

Lemma repeat_transport_failure (net : exchange) (n : nat) :
  transport_failure net -> Forall transport_failure (repeat net n).
Proof.
  intros Hnet. apply Forall_forall. intros x Hx.
  apply repeat_spec in Hx. now subst x.
Qed.

(** A refused connection, 40 failures into the budget. *)
Lemma transport_failure_decrements_witness :
  let w := client_after h2 40 in
  let w' := snd (send Json.loads realtime_command ConnectFails w) in
  socket_counter (self w') = (socket_counter (self w) - 1)%Z /\
  received_data (self w') = received_data (self w) /\
  hardware (self w') = hardware (self w) /\
  ip (self w') = ip (self w) /\
  port (self w') = port (self w).
Proof.
  apply (transport_failure_decrements Json.loads realtime_command ConnectFails
           (client_after h2 40)).
  exact I.
Defined.

(** A fresh client against a host that refuses 100 connections. *)
Lemma retry_exhaustion_witness :
  let w := client_after h2 0 in
  let runs := sends Json.loads realtime_command (repeat ConnectFails 100) w in
  List.length runs = 100%nat /\
  forall (i : nat) (r : outcome unit * world),
    nth_error runs i = Some r ->
    (fst r = Raise SystemExit <-> i = 99%nat) /\
    ((i < 99)%nat -> fst r = Return tt) /\
    received_data (self (snd r)) = received_data (self w) /\
    socket_counter (self (snd r)) = (100 - Z.of_nat (S i))%Z /\
    (0 <= socket_counter (self (snd r)) <= 100)%Z.
Proof.
  apply (retry_exhaustion Json.loads realtime_command (repeat ConnectFails 100)
           (client_after h2 0)).
  - reflexivity.
  - apply repeat_length.
  - apply repeat_transport_failure. exact I.
Defined.

(** A reply that is no JSON, met by a client that holds a reading and is
    50 failures into its budget: the reading is gone after the call. *)
Lemma undecodable_reply_resets_witness :
  let w := client_with_reading 50 in
  let r := send Json.loads realtime_command (Reply garbled_frame) w in
  (fst r = Return tt /\
   empty_data (hardware (self w)) = Return (received_data (self (snd r))) /\
   hardware (self (snd r)) = hardware (self w) /\
   socket_counter (self (snd r)) = SOCKET_RETRY /\
   last (trace (snd r)) SockOpen = PrintWarning) /\
  received_data (self w) = golden_payload /\
  received_data (self (snd r)) <> received_data (self w) /\
  socket_counter (self w) = 50%Z.
Proof.
  split.
  - apply (undecodable_reply_resets Json.loads realtime_command garbled_frame
             (lit "HTTP/1.1 400 Bad Request") (client_with_reading 50));
      reflexivity.
  - vm_compute. repeat split. discriminate.
Defined.

(** The retry counter of that client, 50 before the call, is 100 after
    it. *)
Lemma undecodable_reply_changes_counter :
  let w := client_with_reading 50 in
  let r := send Json.loads realtime_command (Reply garbled_frame) w in
  Cipher.decrypt garbled_frame = Return (lit "HTTP/1.1 400 Bad Request") /\
  Json.loads (lit "HTTP/1.1 400 Bad Request") = None /\
  fst r = Return tt /\
  socket_counter (self w) = 50%Z /\
  socket_counter (self (snd r)) = 100%Z /\
  socket_counter (self (snd r)) <> socket_counter (self w).
Proof. vm_compute. repeat split. discriminate. Qed.

(** C3, and where the code departs from it.  A client that holds a reading,
    its retry counter at 100, meets a reply that does not decode into the
    expected structure.  For a text that is no JSON, [send] resets the data,
    leaves the counter and returns, as C3 says.  For a frame with a non-zero
    header byte, and for the JSON text of an empty object, it does not: the
    exception leaves [send], and the data is not reset (the reading is kept
    in the first case, replaced by the payload in the second). *)
Theorem malformed_reply_escapes :
  let w := client_with_reading 0 in
  let garbled := send Json.loads realtime_command (Reply garbled_frame) w in
  let bad_header :=
    send Json.loads realtime_command (Reply [x01; x00; x00; x00; xd0]) w in
  let unstructured :=
    send Json.loads realtime_command (Reply [x00; x00; x00; x02; xd0; xad]) w in
  socket_counter (self w) = 100%Z /\
  received_data (self w) = golden_payload /\
  (fst garbled = Return tt /\
   empty_data h2 = Return (received_data (self (snd garbled))) /\
   socket_counter (self (snd garbled)) = 100%Z) /\
  (fst bad_header = Raise PreconditionError /\
   received_data (self (snd bad_header)) = golden_payload) /\
  (Cipher.decrypt [x00; x00; x00; x02; xd0; xad] = Return (lit "{}") /\
   fst unstructured = Raise KeyError /\
   received_data (self (snd unstructured)) = JObj []).
Proof. vm_compute. repeat split. Qed.

Lemma golden_response_decodes :
  Cipher.decrypt golden_frame = Return golden_response /\
  Json.loads golden_response = Some golden_payload.
Proof. split; vm_compute; reflexivity. Qed.

(** The documented reply of a hardware 2.x device, received by a client
    constructed for hardware 1.x. *)
Lemma receive_detects_variant_witness :
  let r := receive Json.loads golden_frame (client_after h1 0) in
  fst r = Return tt /\
  received_data (self (snd r)) = golden_payload /\
  (hardware (self (snd r)) = h2 <-> dict_has (lit "current_ma") golden_realtime = true) /\
  (hardware (self (snd r)) = h1 <-> dict_has (lit "current_ma") golden_realtime = false).
Proof.
  apply (receive_detects_variant Json.loads golden_frame golden_response
           golden_payload golden_emeter golden_realtime (client_after h1 0));
    vm_compute; reflexivity.
Defined.

(** A reply with a non-zero first byte, and an empty reply. *)
Lemma bad_frame_propagates_witness :
  fst (send Json.loads realtime_command (Reply [x01; x00; x00; x00; xd0])
         (client_after h2 50))
  = Raise PreconditionError /\
  fst (send Json.loads realtime_command (Reply []) (client_after h2 50))
  = Raise PreconditionError.
Proof.
  split.
  - apply (bad_frame_propagates Json.loads realtime_command
             [x01; x00; x00; x00; xd0] (client_after h2 50)).
    reflexivity.
  - apply (bad_frame_propagates Json.loads realtime_command [] (client_after h2 50)).
    reflexivity.
Defined.

(** The reply [{}], encrypted: [xd0 xad] after the header. *)
Lemma unstructured_reply_propagates_witness :
  let r := send Json.loads realtime_command
             (Reply [x00; x00; x00; x02; xd0; xad]) (client_after h2 50) in
  fst r = Raise KeyError /\
  received_data (self (snd r)) = JObj [] /\
  hardware (self (snd r)) = hardware (self (client_after h2 50)).
Proof.
  apply (unstructured_reply_propagates Json.loads realtime_command
           [x00; x00; x00; x02; xd0; xad] (lit "{}") [] (client_after h2 50));
    reflexivity.
Defined.

(** The end-to-end example: the realtime command encrypts to the known
    byte sequence, and the documented reply of a hardware 2.x device makes
    [send] return with the four measurements readable and the hardware
    version [h2]. *)
Theorem golden_end_to_end :
  get_cmd
  = Return
      [x00; x00; x00; x1e; xd0; xf2; x97; xfa; x9f; xeb; x8e; xfc; xde; xe4; x9f;
       xbd; xda; xbf; xcb; x94; xe6; x83; xe2; x8e; xfa; x93; xfe; x9b; xb9; x83;
       xf8; x85; xf8; x85] /\
  let r := send Json.loads realtime_command (Reply golden_frame) (client_after h1 7) in
  let read := get_data (fun _ => Raise ValueError) (self (snd r)) in
  fst r = Return tt /\
  hardware (self (snd r)) = h2 /\
  socket_counter (self (snd r)) = 100%Z /\
  read (lit "voltage") = Return (FloatOfInt 229865) /\
  read (lit "current") = Return (FloatOfInt 1110) /\
  read (lit "power") = Return (FloatOfInt 231866) /\
  read (lit "total") = Return (FloatOfInt 228).
Proof. vm_compute. repeat split. Qed.

(** The failing run of C9: a refused connection leaves the trace without
    a [close]. *)
Lemma refused_connection_trace :
  trace (snd (send Json.loads realtime_command ConnectFails (client_after h2 0)))
  = [SockOpen; SockSetTimeout 2; SockConnect (lit "192.168.1.53") 9999;
     PrintError (lit "192.168.1.53") 9999].
Proof. vm_compute. reflexivity. Qed.

End ClientFacts.

(** * More properties of the cipher *)

Module CipherLaws.

Import Cipher.

(** The decryption loop returns one byte per input byte, whatever it was
    given to extend, and the encryption loop started with the same key
    writes the input back. *)
Lemma decrypt_loop_spec (data : bytes) :
  forall key : N,
    (key < 256)%N ->
    exists plain,
      List.length plain = List.length data /\
      (forall acc, decrypt_loop key acc data = Return (acc ++ plain)) /\
      (forall result, encrypt_loop key result plain = Return (result ++ data)).
Proof.
  induction data as [| i rest IH]; intros key Hkey.
  - exists []. repeat split; intros; simpl; now rewrite app_nil_r.
  - destruct (CipherFacts.bytes_of_int_byte _
                (CipherFacts.lxor_byte _ _ Hkey (CipherFacts.to_N_byte i)))
      as (b & Eb & Vb).
    destruct (IH (Byte.to_N i) (CipherFacts.to_N_byte i)) as (plain & Hlen & Hdec & Henc).
    exists (b :: plain). repeat split.
    + simpl. now rewrite Hlen.
    + intros acc. simpl. rewrite Eb. cbn [bindE].
      rewrite Hdec, <- app_assoc. reflexivity.
    + intros result. simpl. rewrite Vb, CipherFacts.lxor_cancel.
      unfold bytes_of_int. rewrite Byte.of_to_N. cbn [bindE].
      rewrite Henc, <- app_assoc. reflexivity.
Qed.

Lemma latin1_encode_decode (plain : bytes) :
  latin1_encode_replace (latin1_decode plain) = plain.
Proof.
  unfold latin1_encode_replace, latin1_decode.
  induction plain as [| b rest IH]; simpl; [reflexivity |].
  now rewrite Byte.of_to_N, IH.
Qed.

Lemma latin1_decode_range (plain : bytes) :
  Forall (fun c => (c < 256)%N) (latin1_decode plain).
Proof.
  unfold latin1_decode. apply Forall_forall. intros c Hc.
  apply in_map_iff in Hc. destruct Hc as (b & <- & _). apply CipherFacts.to_N_byte.
Qed.

(** What the [replace] handler does to a text. *)
Lemma latin1_decode_encode (s : str) :
  latin1_decode (latin1_encode_replace s)
  = map (fun c => if (c <? 256)%N then c else 63%N) s.
Proof.
  unfold latin1_decode, latin1_encode_replace. rewrite map_map.
  apply map_ext. intros c.
  destruct (Byte.of_N c) as [b |] eqn:E.
  - apply Byte.to_of_N in E. pose proof (CipherFacts.to_N_byte b) as Hb.
    rewrite E in *. apply N.ltb_lt in Hb. now rewrite Hb.
  - apply Byte.of_N_None_iff in E.
    destruct (N.ltb_spec c 256); [lia | reflexivity].
Qed.

(** A frame that meets the contract of [__decrypt], taken apart. *)
Lemma frame_ok_shape (data : bytes) :
  frame_ok data = true ->
  exists len body, data = x00 :: x00 :: x00 :: len :: body.
Proof.
  unfold frame_ok. rewrite andb_true_iff. intros [Hlen Hzero].
  apply Nat.ltb_lt in Hlen.
  destruct data as [| a [| b [| c [| len body]]]]; simpl in Hlen; try lia.
  cbn [firstn] in Hzero. apply CipherFacts.bytes_eqb_eq in Hzero.
  injection Hzero as -> -> ->. eauto.
Qed.

(** Every accepted frame decrypts, to one Latin-1 character per byte after
    the 4-byte header; the length byte of the header is not read. *)
Theorem decrypt_length (data : bytes) :
  frame_ok data = true ->
  exists text,
    decrypt data = Return text /\
    List.length text = (List.length data - 4)%nat /\
    Forall (fun c => (c < 256)%N) text /\
    forall b0 b1 b2 b3 len body,
      data = b0 :: b1 :: b2 :: b3 :: body ->
      decrypt (b0 :: b1 :: b2 :: len :: body) = Return text.
Proof.
  intros Hok. destruct (frame_ok_shape data Hok) as (len0 & body0 & ->).
  destruct (decrypt_loop_spec body0 hs110_key) as (plain & Hlen & Hdec & _);
    [reflexivity |].
  exists (latin1_decode plain).
  assert (Hrun : forall len, decrypt (x00 :: x00 :: x00 :: len :: body0)
                             = Return (latin1_decode plain)).
  { intros len. unfold decrypt.
    change (frame_ok (x00 :: x00 :: x00 :: len :: body0)) with true.
    cbn [require bindE skipn]. rewrite Hdec. reflexivity. }
  repeat split.
  - apply Hrun.
  - unfold latin1_decode. rewrite length_map, Hlen. simpl. lia.
  - apply latin1_decode_range.
  - intros b0 b1 b2 b3 len body [= <- <- <- _ <-]. apply Hrun.
Qed.

Lemma decrypt_length_witness :
  exists text,
    decrypt golden_frame = Return text /\
    List.length text = (List.length golden_frame - 4)%nat /\
    Forall (fun c => (c < 256)%N) text /\
    forall b0 b1 b2 b3 len body,
      golden_frame = b0 :: b1 :: b2 :: b3 :: body ->
      decrypt (b0 :: b1 :: b2 :: len :: body) = Return text.
Proof. apply (decrypt_length golden_frame). reflexivity. Defined.

(** The round trip for any characters: a character outside Latin-1 comes
    back as a question mark, every other one as itself. *)
Theorem roundtrip_replaces (s : str) :
  s <> [] ->
  (List.length s < 256)%nat ->
  roundtrip s = Return (map (fun c => if (c <? 256)%N then c else 63%N) s).
Proof.
  intros Hne Hlen. unfold roundtrip, encrypt.
  destruct s as [| c s']; [contradiction |].
  change (require (0 <? List.length (c :: s'))%nat) with (Return (A := unit) tt).
  cbn [bindE].
  destruct (CipherFacts.bytes_of_int_byte (N.of_nat (List.length (c :: s'))))
    as (len & Elen & _); [lia |].
  rewrite Elen. cbn [bindE].
  destruct (CipherFacts.encrypt_loop_spec (latin1_encode_replace (c :: s')) hs110_key
              ([x00; x00; x00] ++ [len])) as (body & Eenc & _ & Edec);
    [reflexivity |].
  rewrite Eenc. cbn [bindE app].
  unfold decrypt.
  change (frame_ok (x00 :: x00 :: x00 :: len :: body)) with true.
  cbn [require bindE skipn].
  rewrite Edec. cbn [bindE app].
  now rewrite latin1_decode_encode.
Qed.

(** The euro sign between two letters. *)
Lemma roundtrip_replaces_witness :
  roundtrip [97%N; 8364%N; 98%N] = Return [97%N; 63%N; 98%N].
Proof.
  apply (roundtrip_replaces [97%N; 8364%N; 98%N]).
  - discriminate.
  - simpl. lia.
Defined.

(** Encryption undoes decryption: a frame whose header holds the length of
    its body, 1 to 255 bytes, is what [__encrypt] makes of the text
    [__decrypt] reads from it. *)
Theorem encrypt_decrypt (len : byte) (body : bytes) (text : str) :
  body <> [] ->
  Byte.to_N len = N.of_nat (List.length body) ->
  decrypt (x00 :: x00 :: x00 :: len :: body) = Return text ->
  encrypt text = Return (x00 :: x00 :: x00 :: len :: body).
Proof.
  intros Hne Hlen Hdec.
  destruct (decrypt_loop_spec body hs110_key) as (plain & Lplain & Dplain & Eplain);
    [reflexivity |].
  unfold decrypt in Hdec.
  change (frame_ok (x00 :: x00 :: x00 :: len :: body)) with true in Hdec.
  cbn [require bindE skipn] in Hdec. rewrite Dplain in Hdec.
  cbn [bindE app] in Hdec. injection Hdec as <-.
  assert (Ltext : List.length (latin1_decode plain) = List.length body)
    by (unfold latin1_decode; now rewrite length_map).
  unfold encrypt. rewrite Ltext.
  replace (0 <? List.length body)%nat with true
    by (symmetry; apply Nat.ltb_lt; destruct body; [contradiction | simpl; lia]).
  cbn [require bindE].
  unfold bytes_of_int. rewrite <- Hlen, Byte.of_to_N. cbn [bindE].
  rewrite latin1_encode_decode, Eplain. reflexivity.
Qed.

Lemma encrypt_decrypt_witness :
  encrypt (lit "{}") = Return [x00; x00; x00; x02; xd0; xad].
Proof.
  apply (encrypt_decrypt x02 [xd0; xad] (lit "{}")).
  - discriminate.
  - reflexivity.
  - reflexivity.
Defined.

(** The key the decryption loop holds after the bytes [l]: the last of
    them. *)
Lemma decrypt_loop_app (l1 l2 : bytes) :
  forall (key : N) (acc : bytes),
    decrypt_loop key acc (l1 ++ l2)
    = bindE (decrypt_loop key acc l1)
        (fun r => decrypt_loop (fold_left (fun _ i => Byte.to_N i) l1 key) r l2).
Proof.
  induction l1 as [| i rest IH]; intros key acc; simpl; [reflexivity |].
  destruct (bytes_of_int (N.lxor key (Byte.to_N i))) as [b | e]; simpl;
    [apply IH | reflexivity].
Qed.

Lemma last_key_byte (l : bytes) :
  forall key : N,
    (key < 256)%N -> (fold_left (fun _ i => Byte.to_N i) l key < 256)%N.
Proof.
  induction l as [| i rest IH]; intros key Hkey; simpl; [exact Hkey |].
  apply IH, CipherFacts.to_N_byte.
Qed.

(** The cipher synchronizes itself: two frames that differ in one byte of
    the body decrypt to texts that differ at most at the place of that byte
    and at the next. *)
Theorem decrypt_self_synchronizes (len x y a : byte) (pre suf : bytes) :
  exists (p1 p2 : str) (c1 c2 d1 d2 : N),
    List.length p1 = List.length pre /\
    List.length p2 = List.length suf /\
    decrypt (x00 :: x00 :: x00 :: len :: pre ++ x :: a :: suf)
    = Return (p1 ++ c1 :: c2 :: p2) /\
    decrypt (x00 :: x00 :: x00 :: len :: pre ++ y :: a :: suf)
    = Return (p1 ++ d1 :: d2 :: p2).
Proof.
  destruct (decrypt_loop_spec pre hs110_key) as (plain1 & L1 & D1 & _);
    [reflexivity |].
  destruct (decrypt_loop_spec suf (Byte.to_N a) (CipherFacts.to_N_byte a))
    as (plain2 & L2 & D2 & _).
  pose proof (last_key_byte pre hs110_key eq_refl) as Hkp.
  set (kp := fold_left (fun _ i => Byte.to_N i) pre hs110_key) in Hkp.
  assert (Hrun : forall z : byte,
             exists b1 b2,
               decrypt (x00 :: x00 :: x00 :: len :: pre ++ z :: a :: suf)
               = Return (latin1_decode plain1
                         ++ Byte.to_N b1 :: Byte.to_N b2 :: latin1_decode plain2)).
  { intros z.
    destruct (CipherFacts.bytes_of_int_byte _
                (CipherFacts.lxor_byte _ _ Hkp (CipherFacts.to_N_byte z)))
      as (b1 & E1 & _).
    destruct (CipherFacts.bytes_of_int_byte _
                (CipherFacts.lxor_byte _ _ (CipherFacts.to_N_byte z)
                   (CipherFacts.to_N_byte a)))
      as (b2 & E2 & _).
    exists b1, b2. unfold decrypt.
    change (frame_ok (x00 :: x00 :: x00 :: len :: pre ++ z :: a :: suf)) with true.
    cbn [require bindE skipn].
    rewrite decrypt_loop_app, D1. cbn [bindE app]. fold kp.
    cbn [decrypt_loop]. rewrite E1. cbn [bindE]. rewrite E2. cbn [bindE].
    rewrite D2. cbn [bindE]. unfold latin1_decode.
    rewrite <- !app_assoc, map_app. reflexivity. }
  destruct (Hrun x) as (b1 & b2 & Hx). destruct (Hrun y) as (b1' & b2' & Hy).
  exists (latin1_decode plain1), (latin1_decode plain2),
    (Byte.to_N b1), (Byte.to_N b2), (Byte.to_N b1'), (Byte.to_N b2').
  unfold latin1_decode at 1 2. rewrite !length_map.
  repeat split; assumption.
Qed.

End CipherLaws.

(** * Properties of the address check *)

Module AddressFacts.

(** [lstrip] removes a prefix, of whitespace only. *)
Lemma lstrip_suffix (s : str) :
  exists a, s = a ++ lstrip s /\ Forall (fun c => is_space c = true) a.
Proof.
  induction s as [| c rest (a & Ha & Hs)]; [now exists [] |].
  simpl. destruct (is_space c) eqn:E.
  - exists (c :: a). split; [simpl; now rewrite <- Ha | now constructor].
  - now exists [].
Qed.

Lemma rstrip_prefix (s : str) :
  exists b, s = rstrip s ++ b /\ Forall (fun c => is_space c = true) b.
Proof.
  unfold rstrip. destruct (lstrip_suffix (rev s)) as (a & Ha & Hs).
  exists (rev a). split.
  - rewrite <- rev_app_distr, <- Ha. now rewrite rev_involutive.
  - apply Forall_forall. intros c Hc. apply in_rev in Hc.
    revert c Hc. now apply Forall_forall.
Qed.

Lemma lstrip_trimmed (s : str) : trimmed_left (lstrip s).
Proof.
  induction s as [| c rest IH]; simpl; [exact I |].
  destruct (is_space c) eqn:E; [exact IH | exact E].
Qed.

Lemma lstrip_fixed (s : str) : trimmed_left s -> lstrip s = s.
Proof. destruct s as [| c rest]; simpl; [reflexivity | now intros ->]. Qed.

Lemma rstrip_fixed (s : str) : trimmed_left (rev s) -> rstrip s = s.
Proof.
  intros H. unfold rstrip. rewrite lstrip_fixed by exact H. apply rev_involutive.
Qed.

Lemma rstrip_trimmed (s : str) : trimmed_left (rev (rstrip s)).
Proof. unfold rstrip. rewrite rev_involutive. apply lstrip_trimmed. Qed.

(** Cutting whitespace off the end keeps the start. *)
Lemma rstrip_keeps_left (s : str) : trimmed_left s -> trimmed_left (rstrip s).
Proof.
  intros H. destruct (rstrip_prefix s) as (b & Hb & _).
  destruct (rstrip s) as [| c r]; [exact I |].
  rewrite Hb in H. exact H.
Qed.

Lemma strip_fixed (s : str) :
  trimmed_left s -> trimmed_left (rev s) -> strip s = s.
Proof.
  intros Hl Hr. unfold strip. rewrite lstrip_fixed by exact Hl.
  now apply rstrip_fixed.
Qed.

Lemma strip_trimmed (s : str) :
  trimmed_left (strip s) /\ trimmed_left (rev (strip s)).
Proof.
  unfold strip. split.
  - apply rstrip_keeps_left, lstrip_trimmed.
  - apply rstrip_trimmed.
Qed.

Lemma strip_idempotent (s : str) : strip (strip s) = strip s.
Proof. destruct (strip_trimmed s). now apply strip_fixed. Qed.

Lemma is_prefix_app (p b : str) : is_prefix p (p ++ b) = true.
Proof.
  induction p as [| c p IH]; simpl; [reflexivity |].
  now rewrite N.eqb_refl, IH.
Qed.

Lemma is_substring_app (a p b : str) : is_substring p (a ++ p ++ b) = true.
Proof.
  induction a as [| c a IH].
  - rewrite app_nil_l.
    replace (is_substring p (p ++ b))
      with (is_prefix p (p ++ b)
            || match p ++ b with
               | [] => false
               | _ :: s' => is_substring p s'
               end) by (destruct (p ++ b); reflexivity).
    now rewrite is_prefix_app.
  - simpl. rewrite IH. apply orb_true_r.
Qed.

(** What [strip] returns is part of its argument. *)
Lemma strip_substring (s : str) : is_substring (strip s) s = true.
Proof.
  unfold strip.
  destruct (lstrip_suffix s) as (a & Ha & _).
  destruct (rstrip_prefix (lstrip s)) as (b & Hb & _).
  rewrite Ha at 2. rewrite Hb at 2. apply is_substring_app.
Qed.

Section WithParser.

Variable inet_pton : str -> bool.

(** What [valid_ip] does: it refuses the empty string with
    [PreconditionError], raises [ValueError] where the address parser refuses
    the stripped string, and returns the stripped string otherwise; its
    [@ensure] contract (the result is part of the input) never fails. *)
Theorem valid_ip_cases (ip : str) :
  (ip = [] -> valid_ip inet_pton ip = Body (Raise PreconditionError)) /\
  (ip <> [] -> inet_pton (strip ip) = false ->
   valid_ip inet_pton ip = Body (Raise ValueError)) /\
  (ip <> [] -> inet_pton (strip ip) = true ->
   valid_ip inet_pton ip = Body (Return (strip ip))) /\
  valid_ip inet_pton ip <> PostconditionError.
Proof.
  unfold valid_ip. destruct ip as [| c rest].
  - split; [reflexivity |]. split; [intros H; now destruct H |].
    split; [intros H; now destruct H | discriminate].
  - change (require (0 <? List.length (c :: rest))%nat) with (Return (A := unit) tt).
    cbn [bindE].
    destruct (inet_pton (strip (c :: rest))); cbn [ensure];
      try rewrite strip_substring;
      (split; [discriminate |]); (split; [intros _ E; try discriminate E; reflexivity |]);
      (split; [intros _ E; try discriminate E; reflexivity | discriminate]).
Qed.

(** An address [valid_ip] returns is part of the one it was given, has no
    whitespace at either end, and is one the address parser accepts. *)
Theorem valid_ip_result (ip result : str) :
  valid_ip inet_pton ip = Body (Return result) ->
  result = strip ip /\
  is_substring result ip = true /\
  trimmed_left result /\
  trimmed_left (rev result) /\
  inet_pton result = true.
Proof.
  destruct (valid_ip_cases ip) as (Hempty & Hbad & Hgood & _).
  destruct ip as [| c rest]; [rewrite Hempty by reflexivity; discriminate |].
  destruct (inet_pton (strip (c :: rest))) eqn:E.
  - rewrite Hgood by (discriminate || reflexivity). intros [= <-].
    destruct (strip_trimmed (c :: rest)).
    repeat split; trivial. apply strip_substring.
  - rewrite Hbad by (discriminate || reflexivity). discriminate.
Qed.

(** Checking twice is checking once: an address [valid_ip] returned is
    returned unchanged by a second check, as when the constructor checks
    the address the command line already checked. *)
Theorem valid_ip_idempotent (ip result : str) :
  inet_pton [] = false ->
  valid_ip inet_pton ip = Body (Return result) ->
  valid_ip inet_pton result = Body (Return result).
Proof.
  intros Hempty Hret.
  destruct (valid_ip_result ip result Hret) as (-> & _ & Hl & Hr & Hok).
  destruct (valid_ip_cases (strip ip)) as (_ & _ & Hgood & _).
  rewrite strip_idempotent in Hgood. apply Hgood; [| exact Hok].
  intros E. rewrite E in Hok. congruence.
Qed.

End WithParser.

(** The default address between blanks; a number above 255; no text. *)
Lemma valid_ip_cases_witness :
  valid_ip Inet.pton4 (lit " 192.168.1.53 ") = Body (Return (lit "192.168.1.53")) /\
  valid_ip Inet.pton4 (lit "192.168.1.256") = Body (Raise ValueError) /\
  valid_ip Inet.pton4 [] = Body (Raise PreconditionError).
Proof.
  destruct (valid_ip_cases Inet.pton4 (lit " 192.168.1.53 ")) as (_ & _ & Hgood & _).
  destruct (valid_ip_cases Inet.pton4 (lit "192.168.1.256")) as (_ & Hbad & _ & _).
  destruct (valid_ip_cases Inet.pton4 []) as (Hempty & _ & _ & _).
  split; [| split].
  - apply Hgood; [discriminate | reflexivity].
  - apply Hbad; [discriminate | reflexivity].
  - apply Hempty. reflexivity.
Defined.

Lemma valid_ip_result_witness :
  lit "192.168.1.53" = strip (lit " 192.168.1.53 ") /\
  is_substring (lit "192.168.1.53") (lit " 192.168.1.53 ") = true /\
  trimmed_left (lit "192.168.1.53") /\
  trimmed_left (rev (lit "192.168.1.53")) /\
  Inet.pton4 (lit "192.168.1.53") = true.
Proof.
  apply (valid_ip_result Inet.pton4 (lit " 192.168.1.53 ") (lit "192.168.1.53")).
  reflexivity.
Defined.

Lemma valid_ip_idempotent_witness :
  valid_ip Inet.pton4 (lit "192.168.1.53") = Body (Return (lit "192.168.1.53")).
Proof.
  apply (valid_ip_idempotent Inet.pton4 (lit " 192.168.1.53 ") (lit "192.168.1.53"));
    reflexivity.
Defined.

End AddressFacts.

(** * Invariants of the client *)

Module ClientLaws.

#[local] Arguments lit : simpl never.

Lemma str_eqb_eq (a b : str) : str_eqb a b = true <-> a = b.
Proof.
  unfold str_eqb. destruct (list_eq_dec N.eq_dec a b); split; congruence.
Qed.

(** A name outside the four has no on-wire name. *)
Lemma keyname_get_unknown (h : hardware_version) (item : str) :
  ~ In item logical_names -> keyname_get h item = Raise KeyError.
Proof.
  intros Hitem. unfold keyname_get.
  assert (Hne : forall k, In k logical_names -> str_eqb k item = false).
  { intros k Hk. destruct (str_eqb k item) eqn:E; [| reflexivity].
    apply str_eqb_eq in E. subst k. contradiction. }
  unfold logical_names in Hne.
  assert (K1 : keyname h1
               = [ (lit "current", lit "current"); (lit "voltage", lit "voltage");
                   (lit "power", lit "power"); (lit "total", lit "total") ])
    by reflexivity.
  assert (K2 : keyname h2
               = [ (lit "current", lit "current_ma"); (lit "voltage", lit "voltage_mv");
                   (lit "power", lit "power_mw"); (lit "total", lit "total_wh") ])
    by reflexivity.
  destruct h; [rewrite K1 | rewrite K2]; cbn [dict_get];
    rewrite !Hne by (simpl; auto 6); reflexivity.
Qed.

(** [get_data] with a name outside the four never returns; on stored data
    of the usual shape it raises [KeyError]. *)
Theorem get_data_unknown_item (float_of_str : str -> outcome pyfloat)
    (o : HS110data) (item : str) :
  ~ In item logical_names ->
  (exists e, get_data float_of_str o item = Raise e) /\
  forall emeter realtime,
    getitem (received_data o) (lit "emeter") = Return emeter ->
    getitem emeter (lit "get_realtime") = Return (JObj realtime) ->
    get_data float_of_str o item = Raise KeyError.
Proof.
  intros Hitem. unfold get_data.
  rewrite (keyname_get_unknown (hardware o) item Hitem).
  split.
  - destruct (getitem (received_data o) (lit "emeter")) as [emeter | e1] eqn:E1;
      cbn [bindE].
    + destruct (getitem emeter (lit "get_realtime")) as [realtime | e2] eqn:E2;
        cbn [bindE].
      * destruct (keys realtime); cbn [bindE]; eauto.
      * destruct e2; eauto.
    + destruct e1; eauto.
  - intros emeter realtime -> . cbn [bindE]. intros ->. reflexivity.
Qed.

Lemma get_data_unknown_item_witness :
  (exists e, get_data (fun _ => Raise ValueError) (self (client_after h2 0))
               (lit "energy") = Raise e) /\
  forall emeter realtime,
    getitem (received_data (self (client_after h2 0))) (lit "emeter") = Return emeter ->
    getitem emeter (lit "get_realtime") = Return (JObj realtime) ->
    get_data (fun _ => Raise ValueError) (self (client_after h2 0)) (lit "energy")
    = Raise KeyError.
Proof.
  apply (get_data_unknown_item (fun _ => Raise ValueError) (self (client_after h2 0))
           (lit "energy")).
  intros H. repeat (destruct H as [H | H]; [discriminate H |]). exact H.
Defined.

Section WithDecoder.

Variable json_loads : str -> option json.

(** What [receive] does with a frame that meets its contract: nothing but
    [ValueError] for a text that is no JSON; else the payload is stored, and
    the hardware version set if the payload shows one. *)
Lemma receive_run (data : bytes) (text : str) (w : world) :
  Cipher.decrypt data = Return text ->
  receive json_loads data w
  = match json_loads text with
    | None => (Raise ValueError, w)
    | Some v =>
        match variant_of_data v with
        | Return h =>
            (Return tt,
             mkWorld (with_hardware h (with_received_data v (self w))) (trace w))
        | Raise e => (Raise e, mkWorld (with_received_data v (self w)) (trace w))
        end
    end.
Proof.
  intros Hd.
  unfold receive, loads_or_raise, try_except, bind, ret, raise, lift, get_self, update.
  rewrite (CipherFacts.decrypt_returns_frame_ok data text Hd), Hd.
  cbn [require fst snd].
  destruct (json_loads text) as [v |]; cbn; [| destruct w; reflexivity].
  unfold variant_of_data.
  destruct (getitem v (lit "emeter")) as [emeter | e1]; cbn [bindE]; [| reflexivity].
  destruct (getitem emeter (lit "get_realtime")) as [realtime | e2]; cbn [bindE];
    [| reflexivity].
  destruct (contains (lit "current_ma") realtime) as [[|] | e3]; reflexivity.
Qed.

(** After [receive] stored a payload with a realtime object, [get_data]
    reads the field under the on-wire name that the version just detected
    gives the item: [float()] of that field, and [KeyError] where the object
    lacks it. *)
Theorem get_data_after_receive (float_of_str : str -> outcome pyfloat)
    (data : bytes) (text : str) (v emeter : json) (realtime : dict json)
    (w : world) (item key : str) :
  Cipher.decrypt data = Return text ->
  json_loads text = Some v ->
  getitem v (lit "emeter") = Return emeter ->
  getitem emeter (lit "get_realtime") = Return (JObj realtime) ->
  keyname_get (if dict_has (lit "current_ma") realtime then h2 else h1) item
  = Return key ->
  get_data float_of_str (self (snd (receive json_loads data w))) item
  = match dict_get key realtime with
    | Some value => py_float float_of_str value
    | None => Raise KeyError
    end.
Proof.
  intros Hd Hj He Hr Hk.
  rewrite (receive_run data text w Hd), Hj.
  unfold variant_of_data. rewrite He. cbn [bindE]. rewrite Hr. cbn [bindE contains].
  cbn [snd self]. unfold get_data.
  cbn [received_data hardware with_hardware with_received_data].
  rewrite He. cbn [bindE]. rewrite Hr. cbn [bindE]. rewrite Hk. cbn [bindE getitem].
  destruct (dict_get key realtime) as [value |]; cbn [bindE keys].
  - destruct (py_float float_of_str value) as [f | []]; reflexivity.
  - reflexivity.
Qed.

Lemma variant_of_data_raises (d : json) (e : exn) :
  variant_of_data d = Raise e -> e = KeyError \/ e = TypeError.
Proof.
  unfold variant_of_data.
  destruct (getitem d (lit "emeter")) as [emeter | e1] eqn:E1; cbn [bindE].
  - destruct (getitem emeter (lit "get_realtime")) as [realtime | e2] eqn:E2;
      cbn [bindE].
    + destruct (contains (lit "current_ma") realtime) as [found | e3] eqn:E3;
        cbn [bindE]; [discriminate |].
      intros [= <-]. right. now apply ClientFacts.contains_raises in E3.
    + intros [= <-]. now apply ClientFacts.getitem_raises in E2.
  - intros [= <-]. now apply ClientFacts.getitem_raises in E1.
Qed.

(** The state [__empty_data] builds shows the version it was built for. *)
Lemma empty_data_consistent (h : hardware_version) (d : json) :
  empty_data h = Return d -> variant_of_data d = Return h.
Proof. destruct h; vm_compute; intros [= <-]; reflexivity. Qed.

(** A [send] call whose exchange succeeds ends in one of three ways, the
    retry counter at its maximum in each: the frame contract fails and
    nothing else has changed; or the call returns, the stored version being
    the one the stored data shows; or the stored payload lacks the expected
    structure. *)
Lemma send_reply_cases (command data : bytes) (w : world) :
  let r := send json_loads command (Reply data) w in
  socket_counter (self (snd r)) = SOCKET_RETRY /\
  ((fst r = Raise PreconditionError /\
    self (snd r) = with_socket_counter SOCKET_RETRY (self w)) \/
   (fst r = Return tt /\ consistent (self (snd r))) \/
   fst r = Raise KeyError \/ fst r = Raise TypeError).
Proof.
  intros r. subst r. rewrite ClientFacts.send_reply_run. cbv zeta.
  set (w1 := mkWorld _ _).
  destruct (Cipher.frame_ok data) eqn:Hok.
  - destruct (CipherFacts.decrypt_accepts data Hok) as (text & Hd).
    rewrite (receive_run data text w1 Hd).
    destruct (json_loads text) as [v |].
    + destruct (variant_of_data v) as [h | e] eqn:Hv.
      * split; [reflexivity |]. right. left. split; [reflexivity | exact Hv].
      * destruct (variant_of_data_raises v e Hv) as [-> | ->];
          (split; [reflexivity | auto]).
    + unfold bind. destruct (DataFacts.reset_data_run w1) as (d & Ed & ->).
      unfold emit. cbn [fst snd self]. split; [reflexivity |].
      right. left. split; [reflexivity |].
      unfold consistent. cbn [received_data hardware with_received_data].
      apply empty_data_consistent. exact Ed.
  - assert (E : receive json_loads data w1 = (Raise PreconditionError, w1)).
    { unfold receive, bind, lift. rewrite Hok. reflexivity. }
    rewrite E. cbn [fst snd]. split; [reflexivity |]. left. split; reflexivity.
Qed.

(** The stored hardware version is the one the stored data shows: so it is
    at construction and after a reset, and a [send] call keeps it so unless
    it ends in [KeyError] or [TypeError]; a call that returns after a
    successful exchange makes it so whatever was stored before. *)
Theorem send_keeps_consistent (command : bytes) (net : exchange) (w : world) :
  let r := send json_loads command net w in
  (forall (inet_pton : str -> bool) (hv : hardware_version) (host : str)
          (tcp_port : Z) (o : HS110data),
     init inet_pton hv host tcp_port = Body (Return o) -> consistent o) /\
  consistent (self (snd (reset_data w))) /\
  (consistent (self w) ->
   fst r <> Raise KeyError -> fst r <> Raise TypeError ->
   consistent (self (snd r))) /\
  (forall data, net = Reply data -> fst r = Return tt -> consistent (self (snd r))).
Proof.
  intros r. split; [| split; [| split]].
  - intros inet_pton hv host tcp_port o Ho.
    destruct (DataFacts.init_returns inet_pton hv host tcp_port o Ho) as [Hh Hd].
    unfold consistent. rewrite Hh. apply empty_data_consistent. exact Hd.
  - destruct (DataFacts.reset_data_run w) as (d & Ed & ->).
    apply empty_data_consistent. exact Ed.
  - intros Hc Hk Ht. subst r. destruct net as [| | | data];
      try (rewrite ClientFacts.send_failure_run by exact I; exact Hc).
    destruct (send_reply_cases command data w) as (_ & [[_ ->] | [[_ H] | [H | H]]]);
      [exact Hc | exact H | contradiction | contradiction].
  - intros data -> Hret. subst r.
    destruct (send_reply_cases command data w) as (_ & [[H _] | [[_ H] | [H | H]]]);
      try exact H; rewrite Hret in H; discriminate.
Qed.

(** Under any mix of failures and replies, a retry counter within 1..100
    stays within 0..100 after every call of [send], and it is 0 after
    exactly the call that exits the process. *)
Theorem counter_stays_in_budget (command : bytes) (nets : list exchange) :
  forall w : world,
    (1 <= socket_counter (self w) <= 100)%Z ->
    Forall
      (fun r : outcome unit * world =>
         (0 <= socket_counter (self (snd r)) <= 100)%Z /\
         (socket_counter (self (snd r)) = 0%Z <-> fst r = Raise SystemExit))
      (sends json_loads command nets w).
Proof.
  induction nets as [| net rest IH]; intros w Hc; cbn [sends]; [constructor |].
  assert (Hstep :
            (0 <= socket_counter (self (snd (send json_loads command net w))) <= 100)%Z /\
            (socket_counter (self (snd (send json_loads command net w))) = 0%Z
             <-> fst (send json_loads command net w) = Raise SystemExit)).
  { destruct net as [| | | data];
      try (rewrite ClientFacts.send_failure_run by exact I;
           cbn [fst snd self socket_counter with_socket_counter];
           destruct (socket_counter (self w) - 1 =? 0)%Z eqn:E;
           [apply Z.eqb_eq in E | apply Z.eqb_neq in E];
           (split; [lia | split; [intros; first [reflexivity | lia] |
                                  intros; first [lia | discriminate]]])).
    destruct (send_reply_cases command data w) as (Hk & Hcases).
    rewrite Hk. unfold SOCKET_RETRY. split; [lia |].
    split; [lia |]. intros Hexit.
    destruct Hcases as [[H _] | [[H _] | [H | H]]]; rewrite Hexit in H; discriminate. }
  constructor; [exact Hstep |].
  destruct (fst (send json_loads command net w)) as [[] | e] eqn:Hout; [| constructor].
  apply IH. destruct Hstep as [Hrange Hzero].
  assert (socket_counter (self (snd (send json_loads command net w))) <> 0%Z).
  { intros Hz. apply Hzero in Hz. discriminate. }
  lia.
Qed.

End WithDecoder.

(** The mixed reply: the version is [h2], whose name for the voltage the
    payload lacks. *)
Lemma get_data_after_receive_witness :
  get_data (fun _ => Raise ValueError)
    (self (snd (receive Json.loads mixed_frame (client_after h1 0)))) (lit "voltage")
  = Raise KeyError.
Proof.
  apply (get_data_after_receive Json.loads (fun _ => Raise ValueError) mixed_frame
           mixed_response
           (JObj [(lit "emeter",
                   JObj [(lit "get_realtime",
                          JObj [(lit "current_ma", JInt 1110);
                                (lit "voltage", JInt 229865)])])])
           (JObj [(lit "get_realtime",
                   JObj [(lit "current_ma", JInt 1110); (lit "voltage", JInt 229865)])])
           [(lit "current_ma", JInt 1110); (lit "voltage", JInt 229865)]
           (client_after h1 0) (lit "voltage") (lit "voltage_mv"));
    vm_compute; reflexivity.
Defined.

(** A refused connection, the documented reply, a failed read and an
    undecodable reply, with 2 left of the budget. *)
Lemma counter_stays_in_budget_witness :
  Forall
    (fun r : outcome unit * world =>
       (0 <= socket_counter (self (snd r)) <= 100)%Z /\
       (socket_counter (self (snd r)) = 0%Z <-> fst r = Raise SystemExit))
    (sends Json.loads realtime_command
       [ConnectFails; Reply golden_frame; RecvFails; Reply [x00; x00; x00; x00]]
       (client_after h2 98)).
Proof.
  apply (counter_stays_in_budget Json.loads realtime_command
           [ConnectFails; Reply golden_frame; RecvFails; Reply [x00; x00; x00; x00]]
           (client_after h2 98)).
  vm_compute. split; discriminate.
Defined.

End ClientLaws.

(** * Properties of the text of the object and of the loop of [main] *)

Module LoopFacts.

#[local] Arguments lit : simpl never.

Lemma join_nonempty (sep x : str) (rest : list str) :
  x <> [] -> join sep (x :: rest) <> [].
Proof.
  intros Hx. destruct rest as [| y rest]; cbn [join]; [exact Hx |].
  destruct x; [contradiction | discriminate].
Qed.

(** [__str__] returns a text, one [key=value] per key, whenever the stored
    realtime data is a dict with at least one key. *)
Theorem to_str_printable (py_str : json -> str) (o : HS110data) :
  printable o ->
  exists text,
    to_str py_str o = Body (Return text) /\ text <> [].
Proof.
  intros (emeter & k & v & rest & He & Hr).
  unfold to_str. rewrite He. cbn [bindE]. rewrite Hr. cbn [bindE map].
  set (items := _ :: _).
  assert (Hne : join (lit ", ") items <> []).
  { subst items. apply join_nonempty. cbn [fst].
    destruct k; discriminate. }
  exists (join (lit ", ") items). split; [| exact Hne].
  unfold ensure. destruct (join (lit ", ") items); [contradiction | reflexivity].
Qed.

Lemma to_str_printable_witness :
  exists text,
    to_str (fun _ => lit "0") (self (client_after h1 0)) = Body (Return text) /\
    text <> [].
Proof.
  apply (to_str_printable (fun _ => lit "0") (self (client_after h1 0))).
  exists (JObj (dict_of_list
                  [(lit "get_realtime",
                    JObj (dict_of_list
                            [(lit "current", JInt 0); (lit "voltage", JInt 0);
                             (lit "power", JInt 0); (lit "total", JInt 0);
                             (lit "err_code", JInt 0)]))])),
    (lit "current"), (JInt 0),
    [(lit "voltage", JInt 0); (lit "power", JInt 0); (lit "total", JInt 0);
     (lit "err_code", JInt 0)].
  split; reflexivity.
Defined.

(** [__str__] fails its own [@ensure] contract exactly when the stored
    realtime data is an empty dict, an empty list or an empty string. *)
Theorem to_str_postcondition (py_str : json -> str) (o : HS110data) :
  to_str py_str o = PostconditionError <->
  exists emeter realtime,
    getitem (received_data o) (lit "emeter") = Return emeter /\
    getitem emeter (lit "get_realtime") = Return realtime /\
    (realtime = JObj [] \/ realtime = JArr [] \/ realtime = JStr []).
Proof.
  unfold to_str. split.
  - destruct (getitem (received_data o) (lit "emeter")) as [emeter | e1] eqn:E1;
      cbn [bindE]; [| discriminate].
    destruct (getitem emeter (lit "get_realtime")) as [realtime | e2] eqn:E2;
      cbn [bindE]; [| discriminate].
    intros H. exists emeter, realtime.
    split; [reflexivity |]. split; [exact E2 |].
    destruct realtime as [| b | n | lexeme | s | items | members];
      try discriminate H.
    + destruct s; [auto | cbn in H; discriminate H].
    + destruct items; [auto | cbn in H; discriminate H].
    + destruct members as [| [k v] rest]; [auto |].
      exfalso. revert H. cbn [map]. set (items := _ :: _).
      assert (Hne : join (lit ", ") items <> []).
      { subst items. apply join_nonempty. cbn [fst]. destruct k; discriminate. }
      unfold ensure. destruct (join (lit ", ") items);
        [contradiction | discriminate].
  - intros (emeter & realtime & -> & Hr & Hempty). cbn [bindE].
    rewrite Hr. cbn [bindE].
    destruct Hempty as [-> | [-> | ->]]; reflexivity.
Qed.

(** [__str__] returns a text only for a realtime dict with a key. *)
Lemma to_str_returns (py_str : json -> str) (o : HS110data) (text : str) :
  to_str py_str o = Body (Return text) -> printable o.
Proof.
  unfold to_str, printable, nonempty_realtime.
  destruct (getitem (received_data o) (lit "emeter")) as [emeter | e1] eqn:E1;
    cbn [bindE]; [| discriminate].
  destruct (getitem emeter (lit "get_realtime")) as [realtime | e2] eqn:E2;
    cbn [bindE]; [| discriminate].
  intros H.
  destruct realtime as [| b | n | lexeme | s | items | members]; try discriminate H.
  - destruct s; cbn in H; discriminate H.
  - destruct items; cbn in H; discriminate H.
  - destruct members as [| [k v] rest]; [cbn in H; discriminate H |].
    exists emeter, k, v, rest. split; [reflexivity | exact E2].
Qed.

Section WithEnvironment.

Variable json_loads : str -> option json.
Variable py_str : json -> str.
Variable print_line : str -> outcome unit.
Variable sleep : Z -> outcome unit.
Variable frequency : Z.

(** [connect] always has its command to send. *)
Lemma connect_run (net : exchange) (w : world) :
  connect json_loads net w = send json_loads realtime_command net w.
Proof.
  unfold connect, bind, lift.
  change get_cmd with (Return realtime_command). reflexivity.
Qed.

Lemma nonempty_realtime_variant (v : json) :
  nonempty_realtime v -> exists h, variant_of_data v = Return h.
Proof.
  intros (emeter & k & x & rest & He & Hr).
  unfold variant_of_data. rewrite He. cbn [bindE]. rewrite Hr. cbn [bindE contains].
  eauto.
Qed.

(** A payload whose line gets printed shows a hardware version. *)
Lemma prints_variant (v : json) :
  prints py_str print_line v -> exists h, variant_of_data v = Return h.
Proof.
  intros Hv. destruct (Hv (mkHS110data h1 v [] 0 0) eq_refl) as (text & Ht & _).
  apply nonempty_realtime_variant.
  exact (to_str_returns py_str _ text Ht).
Qed.

(** One turn that the client survives: the exchange fails with more than 1
    left of the budget, or brings a tolerated reply. *)
Lemma turn_survives (net : exchange) (w : world) :
  sleep frequency = Return tt ->
  (forall h d, empty_data h = Return d -> prints py_str print_line d) ->
  prints py_str print_line (received_data (self w)) ->
  tolerated json_loads py_str print_line net ->
  (transport_failure net -> (1 < socket_counter (self w))%Z) ->
  exists line w',
    turn json_loads py_str print_line sleep frequency net w = (Body (Return line), w') /\
    prints py_str print_line (received_data (self w')) /\
    socket_counter (self w')
    = match net with
      | Reply _ => SOCKET_RETRY
      | _ => (socket_counter (self w) - 1)%Z
      end.
Proof.
  intros Hsleep Hzero Hprint Htol Hbudget. unfold turn. rewrite connect_run.
  assert (Hsend : exists w',
             send json_loads realtime_command net w = (Return tt, w') /\
             prints py_str print_line (received_data (self w')) /\
             socket_counter (self w')
             = match net with
               | Reply _ => SOCKET_RETRY
               | _ => (socket_counter (self w) - 1)%Z
               end).
  { destruct net as [| | | data];
      try (rewrite ClientFacts.send_failure_run by exact I;
           specialize (Hbudget I);
           replace (socket_counter (self w) - 1 =? 0)%Z with false
             by (symmetry; apply Z.eqb_neq; lia);
           eexists; split; [reflexivity | split; [exact Hprint | reflexivity]]).
    destruct Htol as (text & Hd & Hj).
    rewrite ClientFacts.send_reply_run. cbv zeta.
    rewrite (ClientLaws.receive_run json_loads data text _ Hd).
    destruct Hj as [-> | (v & -> & Hv)].
    - unfold bind.
      destruct (DataFacts.reset_data_run
                  (mkWorld (with_socket_counter SOCKET_RETRY (self w))
                     (trace w ++ [SockOpen; SockSetTimeout 2;
                                  SockConnect (ip (self w)) (port (self w));
                                  SockSend realtime_command; SockRecv 2048;
                                  SockClose]))) as (d & Ed & ->).
      unfold emit. eexists. split; [reflexivity |].
      split; [| reflexivity].
      apply (Hzero _ _ Ed).
    - destruct (prints_variant v Hv) as (h & ->).
      eexists. split; [reflexivity |]. split; [exact Hv | reflexivity]. }
  destruct Hsend as (w' & -> & Hp & Hc).
  destruct (Hp (self w') eq_refl) as (text & -> & ->).
  rewrite Hsleep. eauto.
Qed.

(** The loop of [main] keeps running: when the stored data and the
    all-zero states have lines that get printed, over exchanges that fail
    without using up the retry budget or bring tolerated replies, every
    turn prints its line and none raises, provided [time.sleep] accepts the
    interval. *)
Theorem main_loop_survives (nets : list exchange) :
  forall w : world,
    sleep frequency = Return tt ->
    (forall h d, empty_data h = Return d -> prints py_str print_line d) ->
    prints py_str print_line (received_data (self w)) ->
    Forall (tolerated json_loads py_str print_line) nets ->
    within_budget (socket_counter (self w)) nets = true ->
    let runs := main_loop json_loads py_str print_line sleep frequency nets w in
    List.length runs = List.length nets /\
    Forall (fun r => exists line, fst r = Body (Return line)) runs.
Proof.
  induction nets as [| net rest IH]; intros w Hsleep Hzero Hprint Htol Hbudget runs;
    subst runs; cbn [main_loop]; [split; [reflexivity | constructor] |].
  inversion Htol as [| ? ? Hnet Hrest]; subst.
  assert (Hfail : transport_failure net -> (1 < socket_counter (self w))%Z).
  { intros Hf. destruct net; try contradiction; cbn [within_budget] in Hbudget;
      apply andb_true_iff in Hbudget as [H _]; now apply Z.ltb_lt in H. }
  destruct (turn_survives net w Hsleep Hzero Hprint Hnet Hfail)
    as (line & w' & -> & Hp & Hc).
  cbn [fst snd].
  assert (Hrest' : within_budget (socket_counter (self w')) rest = true).
  { rewrite Hc. destruct net; cbn [within_budget] in Hbudget; try exact Hbudget;
      apply andb_true_iff in Hbudget as [_ H]; exact H. }
  destruct (IH w' Hsleep Hzero Hp Hrest Hrest') as [Hlen Hall].
  split; [cbn [List.length]; now rewrite Hlen |].
  constructor; [cbn [fst]; eauto | exact Hall].
Qed.

(** A reply with an empty realtime object stops the loop: [connect] takes
    it and returns, and the line the loop then prints fails the contract of
    [__str__]. *)
Theorem empty_realtime_stops_loop (data : bytes) (text : str) (v emeter : json)
    (rest : list exchange) (w : world) :
  Cipher.decrypt data = Return text ->
  json_loads text = Some v ->
  getitem v (lit "emeter") = Return emeter ->
  getitem emeter (lit "get_realtime") = Return (JObj []) ->
  fst (connect json_loads (Reply data) w) = Return tt /\
  exists w',
    main_loop json_loads py_str print_line sleep frequency (Reply data :: rest) w
    = [(PostconditionError, w')].
Proof.
  intros Hd Hj He Hr.
  assert (Hsend : send json_loads realtime_command (Reply data) w
                  = (Return tt,
                     mkWorld
                       (with_hardware h1
                          (with_received_data v
                             (with_socket_counter SOCKET_RETRY (self w))))
                       (trace w ++ [SockOpen; SockSetTimeout 2;
                                    SockConnect (ip (self w)) (port (self w));
                                    SockSend realtime_command; SockRecv 2048;
                                    SockClose]))).
  { rewrite ClientFacts.send_reply_run. cbv zeta.
    rewrite (ClientLaws.receive_run json_loads data text _ Hd), Hj.
    unfold variant_of_data. rewrite He. cbn [bindE]. rewrite Hr. reflexivity. }
  rewrite connect_run, Hsend. split; [reflexivity |].
  cbn [main_loop]. unfold turn. rewrite connect_run, Hsend.
  set (w' := mkWorld _ _).
  assert (Hstr : to_str py_str (self w') = PostconditionError).
  { apply to_str_postcondition. exists emeter, (JObj []).
    subst w'. cbn [self received_data with_hardware with_received_data]. auto. }
  rewrite Hstr. cbn [fst]. eauto.
Qed.

End WithEnvironment.

(** What decides [__str__] is the stored data. *)
Lemma to_str_data (py_str : json -> str) (o o' : HS110data) :
  received_data o = received_data o' -> to_str py_str o = to_str py_str o'.
Proof. unfold to_str. now intros ->. Qed.

Lemma prints_at (py_str : json -> str) (print_line : str -> outcome unit)
    (o : HS110data) (text : str) :
  to_str py_str o = Body (Return text) ->
  print_line (lit "[info] " ++ text) = Return tt ->
  prints py_str print_line (received_data o).
Proof.
  intros Ht Hp o' Ho'. exists text. split; [| exact Hp].
  rewrite <- Ht. now apply to_str_data.
Qed.

(** A refused connection, the documented reply, an undecodable reply and a
    failed read, polled every second by a client that holds a reading and
    prints to a UTF-8 terminal. *)
Lemma main_loop_survives_witness :
  let runs :=
    main_loop Json.loads str_of_reading utf8_print (fun _ => Return tt) 1
      [ConnectFails; Reply golden_frame; Reply garbled_frame; RecvFails]
      (client_after h1 0) in
  List.length runs = 4%nat /\
  Forall (fun r => exists line, fst r = Body (Return line)) runs.
Proof.
  apply (main_loop_survives Json.loads str_of_reading utf8_print (fun _ => Return tt) 1
           [ConnectFails; Reply golden_frame; Reply garbled_frame; RecvFails]
           (client_after h1 0)).
  - reflexivity.
  - intros h d Ed.
    destruct h; vm_compute in Ed; injection Ed as <-;
      eapply (prints_at str_of_reading utf8_print (mkHS110data h1 _ [] 0 0));
      vm_compute; reflexivity.
  - eapply (prints_at str_of_reading utf8_print (self (client_after h1 0)));
      vm_compute; reflexivity.
  - repeat constructor.
    + exists golden_response. split; [reflexivity |]. right.
      exists golden_payload. split; [vm_compute; reflexivity |].
      eapply (prints_at str_of_reading utf8_print
                (mkHS110data h1 golden_payload [] 0 0));
        vm_compute; reflexivity.
    + exists (lit "HTTP/1.1 400 Bad Request"). split; [reflexivity |].
      left. reflexivity.
  - reflexivity.
Defined.

(** What the second turn of that run prints. *)
Lemma main_loop_prints_reading :
  map fst
    (main_loop Json.loads str_of_reading utf8_print (fun _ => Return tt) 1
       [ConnectFails; Reply golden_frame] (client_after h1 0))
  = [ Body (Return (lit "[info] current=0, voltage=0, power=0, total=0, err_code=0"));
      Body (Return (lit "[info] voltage_mv=229865, current_ma=1110, power_mw=231866, total_wh=228, err_code=0")) ].
Proof. vm_compute. reflexivity. Qed.

(** A key that standard output cannot encode stops the loop too: [send]
    takes the reply, and [print] raises on the line. *)
Lemma surrogate_key_stops_loop :
  map fst
    (main_loop Json.loads str_of_reading utf8_print (fun _ => Return tt) 1
       [Reply surrogate_frame; Reply golden_frame] (client_after h2 0))
  = [Body (Raise ValueError)].
Proof. vm_compute. reflexivity. Qed.

Lemma empty_realtime_stops_loop_witness :
  fst (connect Json.loads (Reply hollow_frame) (client_after h2 0)) = Return tt /\
  exists w',
    main_loop Json.loads (fun _ => lit "0") utf8_print (fun _ => Return tt) 1
      [Reply hollow_frame; Reply golden_frame] (client_after h2 0)
    = [(PostconditionError, w')].
Proof.
  apply (empty_realtime_stops_loop Json.loads (fun _ => lit "0") utf8_print
           (fun _ => Return tt) 1
           hollow_frame (lit "{'emeter':{'get_realtime':{}}}")
           (JObj [(lit "emeter", JObj [(lit "get_realtime", JObj [])])])
           (JObj [(lit "get_realtime", JObj [])])
           [Reply golden_frame] (client_after h2 0));
    vm_compute; reflexivity.
Defined.

End LoopFacts.

(** * Properties of the constructor *)

Module ConstructorFacts.

(** What [__init__] refuses and what it keeps.  It raises
    [PreconditionError] for an empty address, [ValueError] for an address
    whose stripped form the address parser refuses, and [PreconditionError]
    for a port outside 0..65535; the object it returns keeps the address as
    it was given, blanks included, with the port and a full retry budget. *)
Theorem init_refuses (inet_pton : str -> bool) (hv : hardware_version)
    (host : str) (tcp_port : Z) :
  (host = [] -> init inet_pton hv host tcp_port = Body (Raise PreconditionError)) /\
  (host <> [] -> inet_pton (strip host) = false ->
   init inet_pton hv host tcp_port = Body (Raise ValueError)) /\
  (host <> [] -> inet_pton (strip host) = true ->
   ~ (0 <= tcp_port <= 65535)%Z ->
   init inet_pton hv host tcp_port = Body (Raise PreconditionError)) /\
  (forall o : HS110data,
     init inet_pton hv host tcp_port = Body (Return o) ->
     ip o = host /\ port o = tcp_port /\ socket_counter o = SOCKET_RETRY /\
     inet_pton (strip host) = true /\ (0 <= tcp_port <= 65535)%Z).
Proof.
  unfold init, valid_ip. destruct host as [| c rest].
  - split; [reflexivity |]. split; [intros H; now destruct H |].
    split; [intros H; now destruct H | discriminate].
  - change (require (0 <? List.length (c :: rest))%nat) with (Return (A := unit) tt).
    cbn [bindE].
    destruct (inet_pton (strip (c :: rest))) eqn:Hp; cbn [ensure].
    + rewrite AddressFacts.strip_substring.
      split; [discriminate |]. split; [discriminate |].
      destruct (require (0 <? List.length (strip (c :: rest)))%nat) as [[] | e] eqn:Hne;
        cbn [bindE].
      * destruct ((0 <=? tcp_port)%Z && (tcp_port <=? 65535)%Z) eqn:Hport;
          cbn [require bindE].
        -- apply andb_true_iff in Hport as [H1 H2].
           apply Z.leb_le in H1. apply Z.leb_le in H2.
           split; [intros _ _ Hout; exfalso; apply Hout; lia |].
           intros o.
           destruct (empty_data hv) as [d |]; cbn [bindE]; [| discriminate].
           intros [= <-]. cbn [ip port socket_counter]. repeat split; trivial; lia.
        -- split; [reflexivity | discriminate].
      * unfold require in Hne.
        destruct (0 <? List.length (strip (c :: rest)))%nat; [discriminate |].
        injection Hne as <-. split; [reflexivity | discriminate].
    + split; [discriminate |]. split; [reflexivity |].
      split; [discriminate | discriminate].
Qed.

(** No address, a number above 255, a port above 65535, and the default
    address between blanks. *)
Lemma init_refuses_witness :
  init Inet.pton4 h2 [] 9999 = Body (Raise PreconditionError) /\
  init Inet.pton4 h2 (lit "999.1.1.1") 9999 = Body (Raise ValueError) /\
  init Inet.pton4 h2 (lit "192.168.1.53") 65536 = Body (Raise PreconditionError) /\
  exists o,
    init Inet.pton4 h2 (lit " 192.168.1.53 ") 9999 = Body (Return o) /\
    ip o = lit " 192.168.1.53 ".
Proof.
  destruct (init_refuses Inet.pton4 h2 [] 9999) as (Hempty & _).
  destruct (init_refuses Inet.pton4 h2 (lit "999.1.1.1") 9999) as (_ & Hbad & _).
  destruct (init_refuses Inet.pton4 h2 (lit "192.168.1.53") 65536) as (_ & _ & Hport & _).
  destruct (init_refuses Inet.pton4 h2 (lit " 192.168.1.53 ") 9999) as (_ & _ & _ & Hkeep).
  split; [apply Hempty; reflexivity |].
  split; [apply Hbad; [discriminate | reflexivity] |].
  split; [apply Hport; [discriminate | reflexivity | lia] |].
  destruct (init Inet.pton4 h2 (lit " 192.168.1.53 ") 9999) as [[o | e] |] eqn:E;
    try (vm_compute in E; discriminate E).
  exists o. split; [reflexivity |]. now apply Hkeep.
Defined.

End ConstructorFacts.
